(** * MovR loader and workload simulator (loadmovr.py)

    A shallow embedding of [loadmovr.py]: the partition mapper
    ([extract_partition_pairs_from_cli]), the bulk loader
    ([load_movr_data], [add_users], [add_vehicles], [add_rides]), the load
    distributor ([run_data_loader]), the workload simulator
    ([simulate_movr_load]), the load generator ([run_load_generator]) and the
    shutdown handler ([signal_handler]).

    Conventions.
    - Python [str] is [string]; a Python [dict] keyed by strings is a
      [gmap string _].  The order in which a dict enumerates its keys is not
      modelled: equality of two maps is equality of dicts ([==]), which
      ignores that order, and what is said of [all_cities] is said up to
      the order of the partitions.
    - Python [int] is [Z]; lengths and indices are [nat].
    - Python [float] occurs in three places.  The ceilings
      [math.ceil(float(a) / b)] are taken on integers below 2^53 in absolute
      value, where the float quotient rounds to the exact ceiling.  The read
      fraction and the values of [random.random()] are rationals; the floats
      that are no numbers (the infinities and NaN) are added for the check
      of the read fraction in [FloatReadFraction].  The readings of
      [time.time()] are rationals, in seconds.
    - An exception is a value of [exn]; a function that may raise returns a
      [result].
    - A function with effects returns, or is given, the list of the events
      it performs in order; logging is recorded only in the controlling
      thread.
    - A simulator thread is modelled running alone: between the steps of
      one pass no other thread touches the state the threads share.
    - The external collaborators ([MovR], [MovRGenerator], [Faker], the
      storage engine, the clock, the thread table) are section variables or
      explicit oracles. *)

From Stdlib Require Import ZArith QArith Lqa List String Ascii Lia Bool.
From stdpp Require Import gmap strings list fin_maps.
Import ListNotations.

Local Open Scope Z_scope.
Local Open Scope list_scope.

(** ** Python results *)

Inductive exn : Type :=
| ValueError (msg : string)
| TypeError
| IndexError
| KeyError
| ZeroDivisionError
| SystemExit (code : Z).

Inductive result (A : Type) : Type :=
| Ok (a : A)
| Raise (e : exn).

Arguments Ok {A} a.
Arguments Raise {A} e.

Definition bind {A B : Type} (r : result A) (k : A -> result B) : result B :=
  match r with
  | Ok a => k a
  | Raise e => Raise e
  end.

Notation "'let*' x ':=' r 'in' k" := (bind r (fun x => k))
  (at level 10, x name, r at level 100, k at level 200).

(** ** Python string helpers *)

Module PyStr.

(** [s.split(sep)] for a one-character separator: the maximal segments
    between occurrences of [sep]; the result is never empty. *)
Fixpoint split (sep : ascii) (s : string) : list string :=
  match s with
  | EmptyString => [EmptyString]
  | String c s' =>
      if Ascii.eqb c sep then EmptyString :: split sep s'
      else match split sep s' with
           | [] => [String c EmptyString]
           | w :: ws => String c w :: ws
           end
  end.

(** [sep.join(l)] *)
Fixpoint join (sep : string) (l : list string) : string :=
  match l with
  | [] => EmptyString
  | [x] => x
  | x :: rest => String.append x (String.append sep (join sep rest))
  end.

(** Does the character occur in the string? *)
Fixpoint contains (sep : ascii) (s : string) : bool :=
  match s with
  | EmptyString => false
  | String c s' => if Ascii.eqb c sep then true else contains sep s'
  end.

(** The text before the first occurrence of [sep] (all of [s] when there
    is none). *)
Fixpoint before_first (sep : ascii) (s : string) : string :=
  match s with
  | EmptyString => EmptyString
  | String c s' =>
      if Ascii.eqb c sep then EmptyString else String c (before_first sep s')
  end.

(** The text after the first occurrence of [sep] (empty when there is
    none). *)
Fixpoint after_first (sep : ascii) (s : string) : string :=
  match s with
  | EmptyString => EmptyString
  | String c s' => if Ascii.eqb c sep then s' else after_first sep s'
  end.

End PyStr.

(** ** Partition mapper *)

Module PartitionMapper.

Definition colon : ascii := ":"%char.

(** [DEFAULT_PARTITION_MAP] *)
Definition DEFAULT_PARTITION_MAP : gmap string (list string) :=
  <["us_east"%string := ["new york"; "boston"; "washington dc"]%string]>
    (<["us_west"%string := ["san francisco"; "seattle"; "los angeles"]%string]>
       (<["eu_west"%string := ["amsterdam"; "paris"; "rome"]%string]> ∅)).

(** The value bound to [pair] after the [if len(pair) < 1 ... else ...]
    statement.  In the first branch [["default"].append(pair[0])] evaluates
    [pair[0]] (an [IndexError] on an empty list) and then binds [pair] to
    the value of [list.append], which is [None]. *)
Definition normalise_pair (pair : list string) : result (option (list string)) :=
  if (length pair <? 1)%nat then
    match pair with
    | [] => Raise IndexError
    | _ :: _ => Ok None
    end
  else
    match pair with
    | [] => Raise IndexError
    | p0 :: rest => Ok (Some [p0; PyStr.join ":" rest])
    end.

(** [pair[i]] on the value bound to [pair]: [None] is not subscriptable. *)
Definition subscript (pair : option (list string)) (i : nat) : result string :=
  match pair with
  | None => Raise TypeError
  | Some l =>
      match nth_error l i with
      | Some x => Ok x
      | None => Raise IndexError
      end
  end.

(** One iteration of the [for partition_pair in pair_list] loop. *)
Definition partition_step (partition_pairs : gmap string (list string))
    (partition_pair : string) : result (gmap string (list string)) :=
  let* pair := normalise_pair (PyStr.split colon partition_pair) in
  let* name := subscript pair 0 in
  match partition_pairs !! name with
  | Some cities =>
      let* city := subscript pair 1 in
      Ok (<[name := cities ++ [city]]> partition_pairs)
  | None =>
      let* city := subscript pair 1 in
      Ok (<[name := [city]]> partition_pairs)
  end.

Fixpoint partition_loop (pair_list : list string)
    (partition_pairs : gmap string (list string))
  : result (gmap string (list string)) :=
  match pair_list with
  | [] => Ok partition_pairs
  | partition_pair :: rest =>
      let* m := partition_step partition_pairs partition_pair in
      partition_loop rest m
  end.

(** [extract_partition_pairs_from_cli]; the argument is [None] when the
    command line gave no [--partition-by] option. *)
Definition extract_partition_pairs_from_cli (pair_list : option (list string))
  : result (gmap string (list string)) :=
  match pair_list with
  | None => Ok DEFAULT_PARTITION_MAP
  | Some l => partition_loop l ∅
  end.

(** The flattening done by the main program:
    [for partition in partition_city_map: all_cities += partition_city_map[partition]]. *)
Definition all_cities_of (partition_city_map : gmap string (list string)) : list string :=
  concat (map snd (map_to_list partition_city_map)).

(** The partition name and the city of an entry read as the text before
    and the text after its first colon. *)
Definition name_of (e : string) : string := PyStr.before_first colon e.
Definition city_of (e : string) : string := PyStr.after_first colon e.

(** The cities of the entries whose partition name is [name], in input
    order. *)
Definition cities_named (name : string) (pair_list : list string) : list string :=
  map city_of (filter (fun e => name_of e = name) pair_list).

(** What a dict holds under a key after a series of appends: nothing when
    no entry was appended. *)
Definition entry_of (cities : list string) : option (list string) :=
  match cities with
  | [] => None
  | _ :: _ => Some cities
  end.

End PartitionMapper.

(** ** Bulk loader *)

Module BulkLoader.

(** [range(0, stop, step)] for a positive [step]. *)
Definition range_step (stop step : Z) : list Z :=
  map (fun k : nat => Z.of_nat k * step)
      (seq 0 (Z.to_nat ((stop + step - 1) / step))).

(** [range(start, stop)] *)
Definition range (start stop : Z) : list Z :=
  map (fun k : nat => start + Z.of_nat k) (seq 0 (Z.to_nat (stop - start))).

(** [random.choice(l)], the generator having picked position [pick]. *)
Definition choice {A : Type} (pick : nat) (l : list A) : result A :=
  match nth_error l (pick mod length l)%nat with
  | Some x => Ok x
  | None => Raise IndexError
  end.

Inductive kind : Type := Users | Vehicles | Rides.

(** What a loader thread does, in order: a read of [TERMINATE_GRACEFULLY]
    at the top of the city loop, or one call of [run_transaction] on
    [add_<kind>_helper(s, chunk, n)] for a city. *)
Inductive event : Type :=
| ReadFlag (city : string)
| Txn (k : kind) (city : string) (chunk n : Z).

Definition add_users (num_users : Z) (city : string) : list event :=
  let chunk_size := 1000 in
  map (fun chunk => Txn Users city chunk (Z.min (chunk + chunk_size) num_users))
      (range_step num_users chunk_size).

Definition add_vehicles (num_vehicles : Z) (city : string) : list event :=
  let chunk_size := 1000 in
  map (fun chunk => Txn Vehicles city chunk (Z.min (chunk + chunk_size) num_vehicles))
      (range_step num_vehicles chunk_size).

Definition add_rides (num_rides : Z) (city : string) : list event :=
  let chunk_size := 800 in
  map (fun chunk => Txn Rides city chunk (Z.min (chunk + chunk_size) num_rides))
      (range_step num_rides chunk_size).

(** The transactions of one city, in the order of the loop body. *)
Definition load_city (num_users num_vehicles num_rides : Z) (city : string)
  : list event :=
  add_users num_users city ++ add_vehicles num_vehicles city
    ++ add_rides num_rides city.

(** The [for city in cities] loop.  [flag t] is the value of
    [TERMINATE_GRACEFULLY] at the moment the thread performs its event
    number [t]; [clock] is the number of events performed so far. *)
Fixpoint load_cities (flag : nat -> bool) (clock : nat)
    (num_users num_vehicles num_rides : Z) (cities : list string) : list event :=
  match cities with
  | [] => []
  | city :: rest =>
      if flag clock then [ReadFlag city]
      else
        let body := load_city num_users num_vehicles num_rides city in
        ReadFlag city :: body
          ++ load_cities flag (clock + 1 + length body)%nat
               num_users num_vehicles num_rides rest
  end.

(** [load_movr_data]: the events performed and how the call ends. *)
Definition load_movr_data (flag : nat -> bool)
    (num_users num_vehicles num_rides : Z) (cities : list string)
  : list event * result unit :=
  if (num_users <=? 0) || (num_rides <=? 0) || (num_vehicles <=? 0) then
    ([], Raise (ValueError "The number of objects to generate must be > 0"))
  else
    (load_cities flag 0 num_users num_vehicles num_rides cities, Ok tt).

Definition is_check (e : event) : bool :=
  match e with ReadFlag _ => true | Txn _ _ _ _ => false end.

(** The cities whose turn came, in order. *)
Definition checked (trace : list event) : list string :=
  omap (fun e => match e with ReadFlag c => Some c | Txn _ _ _ _ => None end) trace.

(** No transaction starts at a moment when the flag is set. *)
Definition no_txn_after_stop (flag : nat -> bool) (trace : list event) : Prop :=
  forall (t : nat) k city chunk n,
    trace !! t = Some (Txn k city chunk n) -> flag t = false.

(** *** The body of a vehicle transaction *)

(** The argument handed to [MovRGenerator.generate_vehicle_metadata]: a
    string, or the Python builtin [type]. *)
Inductive pyarg : Type :=
| PyString (s : string)
| PyBuiltinType.

Record User : Type := mkUser {
  u_id : string; u_city : string; u_name : string;
  u_address : string; u_credit_card : string }.

Record Vehicle (metadata : Type) : Type := mkVehicle {
  v_id : string; v_type : string; v_city : string; v_owner_id : string;
  v_status : string; v_ext : metadata }.

Arguments mkVehicle {metadata}.
Arguments v_id {metadata}.
Arguments v_type {metadata}.
Arguments v_city {metadata}.
Arguments v_owner_id {metadata}.
Arguments v_status {metadata}.
Arguments v_ext {metadata}.

(** What the generators return while one vehicle is built. *)
Record vehicle_draw : Type := mkVehicleDraw {
  vd_type : string;       (* generate_random_vehicle() *)
  vd_uuid : string;       (* generate_uuid() *)
  vd_owner : nat;         (* the position random.choice picks *)
  vd_status : string }.   (* get_vehicle_availability() *)

Section VehicleHelper.
Context {metadata : Type}.
Variable generate_vehicle_metadata : pyarg -> metadata.

(** One pass of the loop body of [add_vehicles_helper]. *)
Definition make_vehicle (city : string) (owners : list User)
    (d : vehicle_draw) : result (Vehicle metadata) :=
  let vehicle_type := vd_type d in
  let* owner := choice (vd_owner d) owners in
  Ok (mkVehicle (vd_uuid d) vehicle_type city (u_id owner) (vd_status d)
        (generate_vehicle_metadata (PyString vehicle_type))).

Fixpoint make_vehicles (city : string) (owners : list User)
    (draws : Z -> vehicle_draw) (indices : list Z)
  : result (list (Vehicle metadata)) :=
  match indices with
  | [] => Ok []
  | i :: rest =>
      let* v := make_vehicle city owners (draws i) in
      let* vs := make_vehicles city owners draws rest in
      Ok (v :: vs)
  end.

(** [add_vehicles_helper(sess, chunk, n)]: the vehicles handed to
    [sess.bulk_save_objects]; [owners] is what the session's query
    returned and [draws i] what the generators return for index [i]. *)
Definition add_vehicles_helper (city : string) (owners : list User)
    (draws : Z -> vehicle_draw) (chunk n : Z)
  : result (list (Vehicle metadata)) :=
  make_vehicles city owners draws (range chunk n).
End VehicleHelper.

End BulkLoader.

(** ** Load distributor *)

Module LoadDistributor.

(** [int(math.ceil(float(a) / b))].  The quotient of two integers below
    2^53 in absolute value is rounded by less than the distance of a
    non-integral quotient to the next integer, so the result is the
    ceiling of the exact quotient. *)
Definition ceil_div (a b : Z) : result Z :=
  if b =? 0 then Raise ZeroDivisionError else Ok (- ((- a) / b)).

(** [l[:k]] and [l[k:]]; a negative [k] counts from the end. *)
Definition slice_to {A : Type} (k : Z) (l : list A) : list A :=
  if 0 <=? k then take (Z.to_nat k) l
  else take (length l - Z.to_nat (- k)) l.

Definition slice_from {A : Type} (k : Z) (l : list A) : list A :=
  if 0 <=? k then drop (Z.to_nat k) l
  else drop (length l - Z.to_nat (- k)) l.

(** The arguments a worker thread is started with (the target is
    [load_movr_data]). *)
Record thread_args : Type := mkThreadArgs {
  t_num_users : Z; t_num_vehicles : Z; t_num_rides : Z;
  t_cities : list string }.

Inductive event : Type :=
| OpenMovR (init_tables : bool)
| AddGeoPartitioning (partition_city_map : gmap string (list string))
| Log (msg : string)
| StartThread (a : thread_args).

(** The [for i in range(usable_threads)] loop with [iterations] passes
    left: the threads started, in order. *)
Fixpoint start_threads (iterations : nat) (cities_per_thread : Z)
    (num_users_per_city num_vehicles_per_city num_rides_per_city : Z)
    (cities_to_load : list string) : list thread_args :=
  match iterations with
  | O => []
  | S i =>
      if (0 <? length cities_to_load)%nat then
        mkThreadArgs num_users_per_city num_vehicles_per_city
          num_rides_per_city (slice_to cities_per_thread cities_to_load)
          :: start_threads i cities_per_thread num_users_per_city
               num_vehicles_per_city num_rides_per_city
               (slice_from cities_per_thread cities_to_load)
      else
        start_threads i cities_per_thread num_users_per_city
          num_vehicles_per_city num_rides_per_city cities_to_load
  end.

(** The part of [run_data_loader] from [usable_threads = ...] to the end
    of the loop that starts the threads: the events performed and, when
    nothing is raised, the threads started. *)
Definition distribute (all_cities : list string)
    (num_users num_rides num_vehicles num_threads : Z)
  : list event * result (list thread_args) :=
  let len := Z.of_nat (length all_cities) in
  let usable_threads := Z.min num_threads len in
  let clamped :=
    if usable_threads <? num_threads then
      [Log "Only using %d of %d requested threads, since we only create at most one thread per city"]
    else [] in
  match
    (let* cities_per_thread := ceil_div len usable_threads in
     let* num_users_per_city := ceil_div num_users len in
     let* num_rides_per_city := ceil_div num_rides len in
     let* num_vehicles_per_city := ceil_div num_vehicles len in
     Ok (start_threads (Z.to_nat usable_threads) cities_per_thread
           num_users_per_city num_vehicles_per_city num_rides_per_city
           all_cities))
  with
  | Raise e => (clamped, Raise e)
  | Ok started => (clamped ++ map StartThread started, Ok started)
  end.

(** [run_data_loader], up to the point where the controlling thread
    begins to wait for its workers; [all_cities] and [partition_city_map]
    are the module-level variables the main program has set. *)
Definition run_data_loader (partition_city_map : gmap string (list string))
    (all_cities : list string)
    (num_users num_rides num_vehicles num_threads : Z)
    (skip_reload_tables enable_geo_partitioning : bool)
  : list event * result unit :=
  if (num_users <=? 0) || (num_rides <=? 0) || (num_vehicles <=? 0) then
    ([], Raise (ValueError "The number of objects to generate must be > 0"))
  else
    let setup :=
      OpenMovR (negb skip_reload_tables)
        :: (if enable_geo_partitioning
            then [AddGeoPartitioning partition_city_map] else [])
        ++ [Log "loading cities %s";
            Log "loading movr data with ~%d users, ~%d vehicles, and ~%d rides"] in
    let '(events, r) :=
      distribute all_cities num_users num_rides num_vehicles num_threads in
    (setup ++ events, let* _ := r in Ok tt).

Definition started_threads (events : list event) : list thread_args :=
  omap (fun e => match e with StartThread a => Some a | _ => None end) events.


End LoadDistributor.

(** ** Workload simulator *)

Module WorkloadSimulator.

Import BulkLoader.

Inductive operation : Type :=
| Read | SignUp | AddVehicle | StartRide | EndRide.

Global Instance operation_eq_dec : EqDecision operation.
Proof. solve_decision. Defined.

(** *** Choosing the operation

    The branch taken in one pass of the loop, written over any monad that
    offers the test [random.random() < p]; the tests are made in program
    order and only when control reaches them. *)
Section Select.
Context {M : Type -> Type}.
Variable ret : forall A, A -> M A.
Variable bnd : forall A B, M A -> (A -> M B) -> M B.
Variable random_lt : Q -> M bool.

Definition select_operation (read_percentage : Q) : M operation :=
  bnd _ _ (random_lt read_percentage) (fun is_read =>
  if is_read then ret _ Read else
  bnd _ _ (random_lt (1 # 10)) (fun is_signup =>
  if is_signup then ret _ SignUp else
  bnd _ _ (random_lt (1 # 10)) (fun is_add_vehicle =>
  if is_add_vehicle then ret _ AddVehicle else
  bnd _ _ (random_lt (1 # 2)) (fun is_start =>
  if is_start then ret _ StartRide else ret _ EndRide)))).
End Select.

Definition Qltb (x y : Q) : bool := negb (Qle_bool y x).

(** First reading: the values [random.random()] returns are given, [tape k]
    being the value of call number [k]; a computation maps the number of
    calls made so far to its value and the new number of calls. *)
Definition drawn (A : Type) : Type := nat -> A * nat.

Definition drawn_ret (A : Type) (a : A) : drawn A := fun k => (a, k).

Definition drawn_bind (A B : Type) (m : drawn A) (f : A -> drawn B) : drawn B :=
  fun k => let '(a, k') := m k in f a k'.

Definition drawn_random_lt (tape : nat -> Q) (p : Q) : drawn bool :=
  fun k => (Qltb (tape k) p, S k).

Definition select_drawn (tape : nat -> Q) (read_percentage : Q) : drawn operation :=
  select_operation drawn_ret drawn_bind (drawn_random_lt tape) read_percentage.

(** Second reading: [random.random()] is uniform on the interval from 0
    (included) to 1 (excluded) and successive calls are independent, so
    [random.random() < p] is a coin that shows heads with probability [p]
    cut to that interval.  A computation is the finite list of its
    outcomes with their weights. *)
Definition dist (A : Type) : Type := list (Q * A).

Definition dist_ret (A : Type) (a : A) : dist A := [(1%Q, a)].

Definition dist_bind (A B : Type) (m : dist A) (f : A -> dist B) : dist B :=
  flat_map (fun pa => map (fun qb => (fst pa * fst qb, snd qb)%Q) (f (snd pa))) m.

Definition clamp01 (p : Q) : Q :=
  if Qle_bool p 0 then 0%Q else if Qle_bool 1 p then 1%Q else p.

Definition dist_random_lt (p : Q) : dist bool :=
  [(clamp01 p, true); ((1 - clamp01 p)%Q, false)].

Definition select_dist (read_percentage : Q) : dist operation :=
  select_operation dist_ret dist_bind dist_random_lt read_percentage.

(** The probability that a computation ends in [a]. *)
Definition Pr {A : Type} `{EqDecision A} (m : dist A) (a : A) : Q :=
  fold_right (fun pa acc => if decide (snd pa = a) then (fst pa + acc)%Q else acc)
    0%Q m.

(** *** One pass of the loop *)

(** A user or vehicle as the registries hold it; only ['id'] is read. *)
Record entity : Type := mkEntity { id : string }.

Record ride : Type := mkRide { ride_city : string; ride_id : string }.

(** [movr_objects[city]] *)
Record registry : Type := mkRegistry {
  users : list entity; vehicles : list entity }.

(** A call of a storage operation of [MovR]. *)
Inductive movr_call (metadata : Type) : Type :=
| get_vehicles (city : string) (limit : Z)
| add_user (city name address credit_card : string)
| add_vehicle (city owner_id type : string) (vehicle_metadata : metadata)
    (status current_location : string)
| start_ride (city rider_id vehicle_id : string)
| end_ride (city ride_id : string).

Arguments get_vehicles {metadata}.
Arguments add_user {metadata}.
Arguments add_vehicle {metadata}.
Arguments start_ride {metadata}.
Arguments end_ride {metadata}.

(** The state the worker threads share, and the storage calls made. *)
Record state (metadata : Type) : Type := mkState {
  movr_objects : gmap string registry;
  active_rides : list ride;
  calls : list (movr_call metadata) }.

Arguments mkState {metadata}.
Arguments movr_objects {metadata}.
Arguments active_rides {metadata}.
Arguments calls {metadata}.

(** What the outside world supplies during one pass of the loop. *)
Record draws : Type := mkDraws {
  stop : bool;                 (* TERMINATE_GRACEFULLY, read at the top *)
  city_pick : nat;             (* random.choice(cities) *)
  randoms : nat -> Q;          (* successive random.random() *)
  name : string; address : string; credit_card : string;   (* Faker *)
  owner_pick : nat;            (* random.choice(...["users"]) *)
  vehicle_type : string;       (* generate_random_vehicle() *)
  status : string;             (* get_vehicle_availability() *)
  location : string;           (* datagen.address() *)
  rider_pick : nat; vehicle_pick : nat;
  new_user : entity;           (* what movr.add_user returns *)
  new_vehicle : entity;        (* what movr.add_vehicle returns *)
  new_ride : ride }.           (* what movr.start_ride returns *)

(** [l.pop()]: the last element and the list without it. *)
Definition pop {A : Type} (l : list A) : option (A * list A) :=
  match rev l with
  | [] => None
  | x :: r => Some (x, rev r)
  end.

Section Iteration.
Context {metadata : Type}.
Variable generate_vehicle_metadata : pyarg -> metadata.

(** [movr_objects[city]] *)
Definition registry_of (st : state metadata) (city : string) : result registry :=
  match movr_objects st !! city with
  | Some reg => Ok reg
  | None => Raise KeyError
  end.

Definition perform (op : operation) (active_city : string) (d : draws)
    (st : state metadata) : result (state metadata) :=
  match op with
  | Read =>
      Ok (mkState (movr_objects st) (active_rides st)
            (calls st ++ [get_vehicles active_city 25]))
  | SignUp =>
      let* reg := registry_of st active_city in
      Ok (mkState
            (<[active_city :=
                 mkRegistry (users reg ++ [new_user d]) (vehicles reg)]>
               (movr_objects st))
            (active_rides st)
            (calls st
               ++ [add_user active_city (name d) (address d) (credit_card d)]))
  | AddVehicle =>
      let* reg := registry_of st active_city in
      let* owner := choice (owner_pick d) (users reg) in
      Ok (mkState
            (<[active_city :=
                 mkRegistry (users reg) (vehicles reg ++ [new_vehicle d])]>
               (movr_objects st))
            (active_rides st)
            (calls st
               ++ [add_vehicle active_city (id owner) (vehicle_type d)
                     (generate_vehicle_metadata PyBuiltinType)
                     (status d) (location d)]))
  | StartRide =>
      let* reg := registry_of st active_city in
      let* rider := choice (rider_pick d) (users reg) in
      let* vehicle := choice (vehicle_pick d) (vehicles reg) in
      Ok (mkState (movr_objects st) (active_rides st ++ [new_ride d])
            (calls st ++ [start_ride active_city (id rider) (id vehicle)]))
  | EndRide =>
      match pop (active_rides st) with
      | Some (r, rest) =>
          Ok (mkState (movr_objects st) rest
                (calls st ++ [end_ride (ride_city r) (ride_id r)]))
      | None => Ok st
      end
  end.

(** The body of [while True], after the test of the stop flag. *)
Definition iteration (cities : list string) (read_percentage : Q)
    (d : draws) (st : state metadata) : result (state metadata) :=
  let* active_city := choice (city_pick d) cities in
  perform (fst (select_drawn (randoms d) read_percentage 0%nat))
    active_city d st.

(** [simulate_movr_load] as run by one thread on its own: the passes of
    the loop consume [ds] in order.  The boolean tells whether the
    function returned (the flag was seen set) or is still looping when
    [ds] is used up. *)
Fixpoint simulate_movr_load (cities : list string) (read_percentage : Q)
    (ds : list draws) (st : state metadata)
  : result (state metadata * bool) :=
  match ds with
  | [] => Ok (st, false)
  | d :: rest =>
      if stop d then Ok (st, true)
      else
        let* st' := iteration cities read_percentage d st in
        simulate_movr_load cities read_percentage rest st'
  end.

(** The storage calls that end a ride. *)
Definition ended (cs : list (movr_call metadata)) : list ride :=
  omap (fun c => match c with
                 | end_ride city ride_id => Some (mkRide city ride_id)
                 | _ => None
                 end) cs.
End Iteration.

(** The pass of the loop with these draws goes on (the flag is unset) and
    falls through to the last branch, the end of a ride. *)
Definition ends_ride (read_percentage : Q) (d : draws) : Prop :=
  stop d = false
  /\ fst (select_drawn (randoms d) read_percentage 0%nat) = EndRide.

(** The storage call that ends a ride of the pool. *)
Definition end_call {metadata : Type} (r : ride) : movr_call metadata :=
  end_ride (ride_city r) (ride_id r).

(** The ratios of the operations as the specification gives them for a
    read fraction of zero. *)
Definition claimed_ratios (pr : operation -> Q) : Prop :=
  (pr Read == 0 /\ pr SignUp == 9 # 100 /\ pr AddVehicle == 81 # 1000
   /\ pr StartRide == 829 # 2000 /\ pr EndRide == 829 # 2000)%Q.

(** A check of the second reading against the first: the values
    [0, 1/N, ..., (N-1)/N] are equally likely for each call, and the tapes
    that lead to an operation are counted. *)
Definition grid (N : nat) : list Q :=
  map (fun k : nat => Z.of_nat k # Pos.of_nat N) (seq 0 N).

Definition tape_of (r : Q * Q * Q * Q) : nat -> Q :=
  fun k =>
    match k with
    | O => fst (fst (fst r))
    | 1%nat => snd (fst (fst r))
    | 2%nat => snd (fst r)
    | _ => snd r
    end.

Definition tapes (N : nat) : list (Q * Q * Q * Q) :=
  list_prod (list_prod (list_prod (grid N) (grid N)) (grid N)) (grid N).

Definition frequency (N : nat) (read_percentage : Q) (op : operation) : nat :=
  length (filter (fun t => fst (select_drawn (tape_of t) read_percentage 0%nat) = op)
            (tapes N)).

(** The number of elements of a list that pass a test. *)
Definition count_if {A : Type} (f : A -> bool) (l : list A) : nat :=
  length (filter (fun x => f x = true) l).

(** The tests on the first, second, third and fourth value drawn that lead
    to an operation. *)
Definition tests_of (read_percentage : Q) (op : operation)
  : (Q -> bool) * (Q -> bool) * (Q -> bool) * (Q -> bool) :=
  let below (p q : Q) := Qltb q p in
  let not_below (p q : Q) := negb (Qltb q p) in
  let any (_ : Q) := true in
  match op with
  | Read => (below read_percentage, any, any, any)
  | SignUp => (not_below read_percentage, below (1 # 10), any, any)
  | AddVehicle =>
      (not_below read_percentage, not_below (1 # 10), below (1 # 10), any)
  | StartRide =>
      (not_below read_percentage, not_below (1 # 10), not_below (1 # 10),
       below (1 # 2))
  | EndRide =>
      (not_below read_percentage, not_below (1 # 10), not_below (1 # 10),
       not_below (1 # 2))
  end.

End WorkloadSimulator.

(** ** Load generator *)

Module LoadGenerator.

Import WorkloadSimulator.

(** The arguments a simulation thread is started with (the target is
    [simulate_movr_load]). *)
Record thread_args : Type := mkThreadArgs {
  t_cities : list string;
  t_movr_objects : gmap string registry;
  t_active_rides : list ride;
  t_read_percentage : Q }.

Inductive event : Type :=
| Log (msg : string)
| OpenMovR
| GetUsers (city : string)
| GetVehicles (city : string)
| GetActiveRides (city : string)
| StartThread (a : thread_args).

Section WithStorage.
(** The storage reads of the warm-up. *)
Variable get_users : string -> list entity.
Variable get_vehicles : string -> list entity.
Variable get_active_rides : string -> list ride.

(** The warm-up loop [for city in cities]. *)
Fixpoint warm_up (cities : list string) (movr_objects : gmap string registry)
    (active_rides : list ride)
  : list event * result (gmap string registry * list ride) :=
  match cities with
  | [] => ([], Ok (movr_objects, active_rides))
  | city :: rest =>
      let reg := mkRegistry (get_users city) (get_vehicles city) in
      let movr_objects' := <[city := reg]> movr_objects in
      if ((length (vehicles reg) =? 0) || (length (users reg) =? 0))%nat then
        ([GetUsers city; GetVehicles city;
          Log "must have users and vehicles for city '%s' in the movr database to generate load. try running with the 'load' command."],
         Raise (SystemExit 1))
      else
        let '(events, r) :=
          warm_up rest movr_objects' (active_rides ++ get_active_rides city) in
        (GetUsers city :: GetVehicles city :: GetActiveRides city :: events, r)
  end.

(** [run_load_generator], up to the point where the controlling thread
    enters its endless sleeping loop. *)
Definition run_load_generator (all_cities : list string) (read_percentage : Q)
    (city_list : option (list string)) (num_threads : Z)
  : list event * result unit :=
  if Qltb read_percentage 0 || Qltb 1 read_percentage then
    ([], Raise (ValueError "read percentage must be between 0 and 1"))
  else
    let cities := match city_list with None => all_cities | Some l => l end in
    let '(events, r) := warm_up cities ∅ [] in
    match r with
    | Raise e =>
        (Log "simulating movr load for cities %s" :: Log "warming up...."
           :: OpenMovR :: events, Raise e)
    | Ok (movr_objects, active_rides) =>
        (Log "simulating movr load for cities %s" :: Log "warming up...."
           :: OpenMovR :: events
           ++ Log "starting load"
           :: replicate (Z.to_nat num_threads)
                (StartThread
                   (mkThreadArgs cities movr_objects active_rides read_percentage)),
         Ok tt)
    end.
End WithStorage.

End LoadGenerator.

(** ** Shutdown coordinator *)

Module ShutdownCoordinator.

(** What one test of the polling loop reads: [threading.active_count()] and
    then, when that exceeds one, [time.time()]. *)
Record observation : Type := mkObservation {
  active_count : Z;
  now : Q }.

(** How the handler leaves: [sys.exit(code)] raises [SystemExit] in the
    controlling thread; [os._exit(code)] ends the process at once. *)
Inductive ending : Type :=
| sys_exit (code : Z)
| os_exit (code : Z).

Definition grace_period : Q := 15.

(** The [while threading.active_count() > 1] loop from its test number [i]
    on; [obs i] is what that test reads.  [None] when [fuel] tests were not
    enough. *)
Fixpoint poll (fuel : nat) (start : Q) (obs : nat -> observation) (i : nat)
  : option ending :=
  match fuel with
  | O => None
  | S fuel' =>
      if 1 <? active_count (obs i) then
        if WorkloadSimulator.Qltb grace_period (now (obs i) - start) then
          Some (os_exit 1)
        else poll fuel' start obs (S i)
      else Some (sys_exit 0)
  end.

(** [signal_handler]: the new value of [TERMINATE_GRACEFULLY] and the way
    the handler leaves.  [start] is the clock when the wait begins. *)
Definition signal_handler (fuel : nat) (TERMINATE_GRACEFULLY : bool)
    (start : Q) (obs : nat -> observation) : bool * option ending :=
  let TERMINATE_GRACEFULLY := true in
  (TERMINATE_GRACEFULLY, poll fuel start obs 0).

(** The tests before number [n] all found worker threads alive and the
    grace period not yet over. *)
Definition waiting_before (start : Q) (obs : nat -> observation) (n : nat) : Prop :=
  forall m : nat, (m < n)%nat ->
    1 < active_count (obs m) /\ (now (obs m) - start <= grace_period)%Q.

End ShutdownCoordinator.

(** ** The main program *)

Module Main.

(** The parsed command line. *)
Record args : Type := mkArgs {
  conn_string_names_database : bool;
    (* does the regular-expression search on args.conn_string find a match *)
  num_threads : Z;
  log_level : string;
  subparser_name : string;
  num_users : Z; num_vehicles : Z; num_rides : Z;
  partition_pair : option (list string);
  enable_geo_partitioning : bool;
  skip_reload_tables : bool;
  city : option (list string);
  read_percentage : Q }.

Inductive event : Type :=
| Log (msg : string)
| Loader (e : LoadDistributor.event)
| Generator (e : LoadGenerator.event).

Section WithStorage.
Variable get_users : string -> list WorkloadSimulator.entity.
Variable get_vehicles : string -> list WorkloadSimulator.entity.
Variable get_active_rides : string -> list WorkloadSimulator.ride.

Definition main (a : args) : list event * result unit :=
  if negb (conn_string_names_database a) then
    ([Log "The connection string needs to point to a database. Example: postgres://root@localhost:26257/mymovrdatabase?sslmode=disable"],
     Raise (SystemExit 1))
  else if num_threads a <=? 0 then
    ([Log "Number of threads must be greater than 0."], Raise (SystemExit 1))
  else if negb (bool_decide
                  (log_level a ∈ ["debug"; "info"; "warning"; "error"]%string)) then
    ([Log "Invalid log level: %s"], Raise (SystemExit 1))
  else
    let connected := Log "connected to movr database @ %s" in
    let is_load := bool_decide (subparser_name a = "load"%string) in
    match
      PartitionMapper.extract_partition_pairs_from_cli
        (if is_load then partition_pair a else None)
    with
    | Raise e => ([connected], Raise e)
    | Ok partition_city_map =>
        let all_cities := PartitionMapper.all_cities_of partition_city_map in
        if is_load then
          let '(events, r) :=
            LoadDistributor.run_data_loader partition_city_map all_cities
              (num_users a) (num_rides a) (num_vehicles a) (num_threads a)
              (skip_reload_tables a) (enable_geo_partitioning a) in
          (connected :: map Loader events, r)
        else
          let '(events, r) :=
            LoadGenerator.run_load_generator get_users get_vehicles
              get_active_rides all_cities (read_percentage a) (city a)
              (num_threads a) in
          (connected :: map Generator events, r)
    end.
End WithStorage.

End Main.

(** ** Sample data *)

Module Samples.

Import BulkLoader WorkloadSimulator.

(** A metadata generator that tells its arguments apart. *)
Definition sample_metadata (a : pyarg) : string :=
  match a with
  | PyString s => String.append "metadata for " s
  | PyBuiltinType => "metadata for <type 'type'>"
  end.

(** Draws that lead a pass to the end of a ride (every random value is
    9/10) and draws that lead it to add a vehicle (the third value is 0). *)
Definition end_ride_draws : draws :=
  mkDraws false 0 (fun _ => 9 # 10) "" "" "" 0 "" "" "" 0 0
    (mkEntity "") (mkEntity "") (mkRide "" "").

Definition add_vehicle_draws : draws :=
  mkDraws false 0 (fun k => match k with 2%nat => 0%Q | _ => 9 # 10 end)
    "" "" "" 0 "scooter" "available" "1 Main Street" 0 0
    (mkEntity "") (mkEntity "v2") (mkRide "" "").

Definition sample_state : state string :=
  mkState
    {[ "seattle"%string := mkRegistry [mkEntity "u1"] [mkEntity "v1"] ]}
    [mkRide "seattle" "r1"; mkRide "seattle" "r2"; mkRide "seattle" "r3"]
    [].

Definition sample_vehicle_draws (i : Z) : vehicle_draw :=
  mkVehicleDraw (if i =? 0 then "bike" else "scooter") "uuid" 0 "available".

(** Six threads alive at the first three tests of the shutdown loop, one
    at the later ones; the tests are a second apart. *)
Definition sample_observations (i : nat) : ShutdownCoordinator.observation :=
  ShutdownCoordinator.mkObservation (if (i <? 3)%nat then 6 else 1)
    (inject_Z (Z.of_nat i)).

End Samples.

(** ** The bodies of the loader's transactions *)

Module LoaderBodies.

Import BulkLoader.

(** What the generators return while one user is built. *)
Record user_draw : Type := mkUserDraw {
  ud_uuid : string;          (* generate_uuid() *)
  ud_name : string;          (* datagen.name() *)
  ud_address : string;       (* datagen.address() *)
  ud_credit_card : string }. (* datagen.credit_card_number() *)

Definition make_user (city : string) (d : user_draw) : User :=
  mkUser (ud_uuid d) city (ud_name d) (ud_address d) (ud_credit_card d).

(** [add_users_helper(sess, chunk, n)]: the users handed to
    [sess.bulk_save_objects]. *)
Definition add_users_helper (city : string) (draws : Z -> user_draw)
    (chunk n : Z) : list User :=
  map (fun i => make_user city (draws i)) (range chunk n).

(** The users a transaction of [add_users] saves. *)
Definition users_of_txn (draws : Z -> user_draw) (e : event) : list User :=
  match e with
  | Txn Users city chunk n => add_users_helper city draws chunk n
  | _ => []
  end.

(** [add_users]: all the users saved, transaction after transaction, each
    transaction body being run once. *)
Definition users_written (city : string) (draws : Z -> user_draw)
    (num_users : Z) : list User :=
  concat (map (users_of_txn draws) (add_users num_users city)).

(** The indices a transaction works on: [range(chunk, n)]. *)
Definition txn_range (e : event) : list Z :=
  match e with
  | ReadFlag _ => []
  | Txn _ _ chunk n => range chunk n
  end.

Section Vehicles.
Context {metadata : Type}.
Variable generate_vehicle_metadata : pyarg -> metadata.

(** [add_vehicles]: the transactions run in order, [owners_at chunk] being
    what the query of the transaction that starts at [chunk] returns; an
    exception raised in a transaction ends the function. *)
Fixpoint run_vehicle_txns (owners_at : Z -> list User)
    (draws : Z -> vehicle_draw) (txns : list event)
  : result (list (Vehicle metadata)) :=
  match txns with
  | [] => Ok []
  | Txn Vehicles city chunk n :: rest =>
      let* saved :=
        add_vehicles_helper generate_vehicle_metadata city (owners_at chunk)
          draws chunk n in
      let* later := run_vehicle_txns owners_at draws rest in
      Ok (saved ++ later)
  | _ :: rest => run_vehicle_txns owners_at draws rest
  end.

Definition vehicles_written (city : string) (owners_at : Z -> list User)
    (draws : Z -> vehicle_draw) (num_vehicles : Z)
  : result (list (Vehicle metadata)) :=
  run_vehicle_txns owners_at draws (add_vehicles num_vehicles city).
End Vehicles.

(** A [datetime] is its number of microseconds since the epoch; a
    [timedelta] is a number of microseconds. *)
Definition timedelta_days (d : Z) : Z := d * 86400000000.
Definition timedelta_minutes (m : Z) : Z := m * 60000000.

Record Ride (revenue : Type) : Type := mkRide {
  r_id : string; r_city : string; r_vehicle_city : string;
  r_rider_id : string; r_vehicle_id : string; r_start_time : Z;
  r_start_address : string; r_end_address : string; r_revenue : revenue;
  r_end_time : Z }.

Arguments mkRide {revenue}.
Arguments r_id {revenue}.
Arguments r_city {revenue}.
Arguments r_vehicle_city {revenue}.
Arguments r_rider_id {revenue}.
Arguments r_vehicle_id {revenue}.
Arguments r_start_time {revenue}.
Arguments r_start_address {revenue}.
Arguments r_end_address {revenue}.
Arguments r_revenue {revenue}.
Arguments r_end_time {revenue}.

(** What the clock and the generators return while one ride is built. *)
Record ride_draw (revenue : Type) : Type := mkRideDraw {
  rd_now : Z;                 (* datetime.datetime.now() *)
  rd_days : Z;                (* random.randint(0, 30) *)
  rd_uuid : string;           (* generate_uuid() *)
  rd_rider : nat;             (* the position random.choice(users) picks *)
  rd_vehicle : nat;           (* the position random.choice(vehicles) picks *)
  rd_start_address : string;  (* datagen.address() *)
  rd_end_address : string;    (* datagen.address() *)
  rd_revenue : revenue;       (* generate_revenue() *)
  rd_minutes : Z }.           (* random.randint(0, 60) *)

Arguments mkRideDraw {revenue}.
Arguments rd_now {revenue}.
Arguments rd_days {revenue}.
Arguments rd_uuid {revenue}.
Arguments rd_rider {revenue}.
Arguments rd_vehicle {revenue}.
Arguments rd_start_address {revenue}.
Arguments rd_end_address {revenue}.
Arguments rd_revenue {revenue}.
Arguments rd_minutes {revenue}.

(** What [random.randint] guarantees of the two numbers drawn for a ride. *)
Definition randint_in_range {revenue : Type} (d : ride_draw revenue) : Prop :=
  0 <= rd_days d <= 30 /\ 0 <= rd_minutes d <= 60.

Section Rides.
Context {metadata revenue : Type}.

(** One pass of the loop body of [add_rides_helper]. *)
Definition make_ride (city : string) (users : list User)
    (vehicles : list (Vehicle metadata)) (d : ride_draw revenue)
  : result (Ride revenue) :=
  let start_time := rd_now d - timedelta_days (rd_days d) in
  let* rider := choice (rd_rider d) users in
  let* vehicle := choice (rd_vehicle d) vehicles in
  Ok (mkRide (rd_uuid d) city city (u_id rider) (v_id vehicle) start_time
        (rd_start_address d) (rd_end_address d) (rd_revenue d)
        (start_time + timedelta_minutes (rd_minutes d))).

Fixpoint make_rides (city : string) (users : list User)
    (vehicles : list (Vehicle metadata)) (draws : Z -> ride_draw revenue)
    (indices : list Z) : result (list (Ride revenue)) :=
  match indices with
  | [] => Ok []
  | i :: rest =>
      let* r := make_ride city users vehicles (draws i) in
      let* rs := make_rides city users vehicles draws rest in
      Ok (r :: rs)
  end.

(** [add_rides_helper(sess, chunk, n)], inside [add_rides(engine,
    num_rides, city)]: the rides handed to [sess.bulk_save_objects].  The
    helper does not read [n]; it computes the end of its range again. *)
Definition add_rides_helper (num_rides : Z) (city : string)
    (users : list User) (vehicles : list (Vehicle metadata))
    (draws : Z -> ride_draw revenue) (chunk n : Z)
  : result (list (Ride revenue)) :=
  let chunk_size := 800 in
  make_rides city users vehicles draws
    (range chunk (Z.min (chunk + chunk_size) num_rides)).
End Rides.

(** The uninterrupted run of the loader: every city in turn, its flag
    read followed by all its transactions. *)
Definition full_run (num_users num_vehicles num_rides : Z)
    (cities : list string) : list event :=
  concat (map (fun city =>
                 ReadFlag city :: load_city num_users num_vehicles num_rides city)
            cities).

End LoaderBodies.

(** ** What the simulator's state keeps *)

Module SimulatorState.

Import WorkloadSimulator.

(** Every city the threads draw from has a registry with at least one user
    and one vehicle, as the warm-up of the load generator ensures. *)
Definition seeded {metadata : Type} (cities : list string)
    (st : state metadata) : Prop :=
  cities <> []
  /\ forall city, city ∈ cities ->
       exists reg, movr_objects st !! city = Some reg
                   /\ users reg <> [] /\ vehicles reg <> [].

Definition is_start_ride {metadata : Type} (c : movr_call metadata) : bool :=
  match c with start_ride _ _ _ => true | _ => false end.

Definition is_end_ride {metadata : Type} (c : movr_call metadata) : bool :=
  match c with end_ride _ _ => true | _ => false end.

Definition is_read {metadata : Type} (cities : list string)
    (c : movr_call metadata) : Prop :=
  exists city, city ∈ cities /\ c = get_vehicles city 25.

(** The threads a run of the load generator has started. *)
Definition started_simulators (events : list LoadGenerator.event)
  : list LoadGenerator.thread_args :=
  omap (fun e => match e with
                 | LoadGenerator.StartThread a => Some a
                 | _ => None
                 end) events.

(** The storage reads of a run of the load generator, in order. *)
Definition is_storage_read (e : LoadGenerator.event) : bool :=
  match e with
  | LoadGenerator.GetUsers _ | LoadGenerator.GetVehicles _
  | LoadGenerator.GetActiveRides _ => true
  | _ => false
  end.


Definition is_log (e : Main.event) : bool :=
  match e with Main.Log _ => true | _ => false end.

(** Storage has a user and a vehicle for the city. *)
Definition has_seed (get_users get_vehicles : string -> list entity)
    (city : string) : Prop :=
  get_users city <> [] /\ get_vehicles city <> [].

(** The three storage reads the warm-up makes for a city it accepts. *)
Definition warm_up_reads (city : string) : list LoadGenerator.event :=
  [LoadGenerator.GetUsers city; LoadGenerator.GetVehicles city;
   LoadGenerator.GetActiveRides city].

(** Between two states of the shared store: no registry has appeared or
    gone, every list of users or vehicles has only been added to at its
    end, and so has the list of storage calls. *)
Definition grown {metadata : Type} (st st' : state metadata) : Prop :=
  (forall city, movr_objects st !! city = None -> movr_objects st' !! city = None)
  /\ (forall city reg, movr_objects st !! city = Some reg ->
        exists reg', movr_objects st' !! city = Some reg'
                     /\ users reg `prefix_of` users reg'
                     /\ vehicles reg `prefix_of` vehicles reg')
  /\ calls st `prefix_of` calls st'.

(** The rides in the pool and the rides ended, less the rides started: the
    quantity that the passes of the simulator keep. *)
Definition balance {metadata : Type} (st : state metadata) : Z :=
  Z.of_nat (length (active_rides st))
  + Z.of_nat (count_if is_end_ride (calls st))
  - Z.of_nat (count_if is_start_ride (calls st)).

(** What [random.random()] guarantees of a value it returns. *)
Definition unit_interval (q : Q) : Prop := (0 <= q /\ q < 1)%Q.

End SimulatorState.

(** ** More sample data *)

Module MoreSamples.

Import BulkLoader WorkloadSimulator LoaderBodies.

Definition one_owner (_ : Z) : list User := [mkUser "u1" "seattle" "" "" ""].

Definition no_owner (_ : Z) : list User := [].

Definition one_vehicle : list (Vehicle string) :=
  [mkVehicle "v1" "bike" "seattle" "u1" "available" "metadata for bike"].

(** A ride drawn three days back and twenty minutes long. *)
Definition sample_ride_draws (_ : Z) : ride_draw unit :=
  mkRideDraw 1700000000000000 3 "uuid" 0 0 "1 Main Street" "2 Main Street" tt 20.

Definition never_set (_ : nat) : bool := false.

(** Draws whose first random value is one half. *)
Definition half_draws : draws :=
  mkDraws false 0 (fun _ => 1 # 2) "" "" "" 0 "" "" "" 0 0
    (mkEntity "") (mkEntity "") (WorkloadSimulator.mkRide "" "").

(** Draws of a pass that finds the stop flag set. *)
Definition stop_draws : draws :=
  mkDraws true 0 (fun _ => 9 # 10) "" "" "" 0 "" "" "" 0 0
    (mkEntity "") (mkEntity "") (WorkloadSimulator.mkRide "" "").

Definition stored_users (_ : string) : list entity := [mkEntity "u1"].
Definition stored_vehicles (_ : string) : list entity := [mkEntity "v1"].
Definition stored_rides (city : string) : list ride := [WorkloadSimulator.mkRide city "r1"].

(** A storage in which Paris has no vehicle. *)
Definition vehicles_but_paris (city : string) : list entity :=
  if decide (city = "paris"%string) then [] else [mkEntity "v1"].


Definition bad_level_args : Main.args :=
  Main.mkArgs true 5 "verbose" "load" 50 10 500 None false false None (19 # 20).

(** Six threads alive at every test, and a clock that stands still. *)
Definition frozen_observations (_ : nat) : ShutdownCoordinator.observation :=
  ShutdownCoordinator.mkObservation 6 0.

End MoreSamples.

(** ** The read fraction as a float *)

Module FloatReadFraction.

Import WorkloadSimulator.

(** The value of [--read-only-percentage] is what [float] makes of the
    text on the command line: a finite number (kept exact here), an
    infinity, or NaN ([float] accepts the texts nan, inf and -inf). *)
Inductive pyfloat : Type :=
| Finite (q : Q)
| PosInf
| NegInf
| NaN.

(** [x < y] on floats: a comparison with NaN is false whatever the other
    side is. *)
Definition float_lt (x y : pyfloat) : bool :=
  match x, y with
  | NaN, _ | _, NaN => false
  | Finite a, Finite b => Qltb a b
  | _, NegInf => false
  | NegInf, _ => true
  | PosInf, _ => false
  | Finite _, PosInf => true
  end.

(** [x > y] *)
Definition float_gt (x y : pyfloat) : bool := float_lt y x.

(** The arguments of a simulation thread, the read fraction as it was
    parsed. *)
Record thread_args : Type := mkThreadArgs {
  t_cities : list string;
  t_movr_objects : gmap string registry;
  t_active_rides : list ride;
  t_read_percentage : pyfloat }.

Inductive event : Type :=
| Log (msg : string)
| OpenMovR
| GetUsers (city : string)
| GetVehicles (city : string)
| GetActiveRides (city : string)
| StartThread (a : thread_args).

(** An event of the generator run on a number, as an event of the
    generator run on a float. *)
Definition of_number (e : LoadGenerator.event) : event :=
  match e with
  | LoadGenerator.Log msg => Log msg
  | LoadGenerator.OpenMovR => OpenMovR
  | LoadGenerator.GetUsers city => GetUsers city
  | LoadGenerator.GetVehicles city => GetVehicles city
  | LoadGenerator.GetActiveRides city => GetActiveRides city
  | LoadGenerator.StartThread a =>
      StartThread
        (mkThreadArgs (LoadGenerator.t_cities a) (LoadGenerator.t_movr_objects a)
           (LoadGenerator.t_active_rides a)
           (Finite (LoadGenerator.t_read_percentage a)))
  end.

Section WithStorage.
Variable get_users : string -> list entity.
Variable get_vehicles : string -> list entity.
Variable get_active_rides : string -> list ride.

(** [run_load_generator] on the float it is called with, up to the point
    where the controlling thread enters its endless sleeping loop.  The
    warm-up loop does not read the fraction and is the one of
    [LoadGenerator]. *)
Definition run_load_generator (all_cities : list string)
    (read_percentage : pyfloat) (city_list : option (list string))
    (num_threads : Z) : list event * result unit :=
  if float_lt read_percentage (Finite 0) || float_gt read_percentage (Finite 1) then
    ([], Raise (ValueError "read percentage must be between 0 and 1"))
  else
    let cities := match city_list with None => all_cities | Some l => l end in
    let '(events, r) :=
      LoadGenerator.warm_up get_users get_vehicles get_active_rides cities ∅ [] in
    match r with
    | Raise e =>
        (Log "simulating movr load for cities %s" :: Log "warming up...."
           :: OpenMovR :: map of_number events, Raise e)
    | Ok (movr_objects, active_rides) =>
        (Log "simulating movr load for cities %s" :: Log "warming up...."
           :: OpenMovR :: map of_number events
           ++ Log "starting load"
           :: replicate (Z.to_nat num_threads)
                (StartThread
                   (mkThreadArgs cities movr_objects active_rides read_percentage)),
         Ok tt)
    end.
End WithStorage.

(** [random.random() < read_percentage] in a simulation thread, the random
    value being [r]. *)
Definition random_below (r : Q) (read_percentage : pyfloat) : bool :=
  float_lt (Finite r) read_percentage.

End FloatReadFraction.

(** * Properties *)

(** ** Strings *)

Section StringFacts.
Import PyStr.
Variable sep : ascii.

Lemma split_nonempty (s : string) : split sep s <> [].
Proof.
  destruct s as [|c s]; simpl; [discriminate|].
  destruct (Ascii.eqb c sep); [discriminate|].
  destruct (split sep s); discriminate.
Qed.

Lemma join_cons_cons (x y : string) (l : list string) :
  join (String sep EmptyString) (x :: y :: l)
  = String.append x (String sep (join (String sep EmptyString) (y :: l))).
Proof. reflexivity. Qed.

(** Joining the segments with the separator gives the string back. *)
Lemma join_split (s : string) : join (String sep EmptyString) (split sep s) = s.
Proof.
  induction s as [|c s IH]; [reflexivity|].
  cbn [split]. destruct (Ascii.eqb_spec c sep) as [->|Hne].
  - pose proof (split_nonempty s) as Hs.
    destruct (split sep s) as [|w ws]; [congruence|].
    rewrite join_cons_cons, IH. reflexivity.
  - destruct (split sep s) as [|w ws] eqn:E.
    + exfalso. eapply split_nonempty, E.
    + destruct ws as [|w' ws].
      * simpl in *. congruence.
      * rewrite join_cons_cons in *. rewrite <- IH. reflexivity.
Qed.

(** The first segment is the text before the first separator, and the
    other segments joined are the text after it. *)
Lemma split_first (s : string) :
  exists rest,
    split sep s = before_first sep s :: rest
    /\ join (String sep EmptyString) rest = after_first sep s.
Proof.
  induction s as [|c s (rest & E & J)]; [exists []; split; reflexivity|].
  cbn [split before_first after_first].
  destruct (Ascii.eqb_spec c sep) as [->|Hne].
  - exists (split sep s). split; [reflexivity|apply join_split].
  - rewrite E. exists rest. split; [reflexivity|exact J].
Qed.

(** A string that holds the separator is its text before the first
    separator, the separator, and its text after it; the text before holds
    no separator. *)
Lemma first_decompose (s : string) :
  contains sep s = true ->
  s = String.append (before_first sep s) (String sep (after_first sep s))
  /\ contains sep (before_first sep s) = false.
Proof.
  induction s as [|c s IH]; simpl; [discriminate|].
  destruct (Ascii.eqb_spec c sep) as [->|Hne]; intros H.
  - split; reflexivity.
  - destruct (IH H) as [E F]. split.
    + rewrite E at 1. reflexivity.
    + simpl. destruct (Ascii.eqb_spec c sep); [contradiction|exact F].
Qed.

(** Conversely the decomposition is unique. *)
Lemma first_unique (n c : string) :
  contains sep n = false ->
  before_first sep (String.append n (String sep c)) = n
  /\ after_first sep (String.append n (String sep c)) = c.
Proof.
  induction n as [|a n IH]; simpl.
  - rewrite Ascii.eqb_refl. intros _. split; reflexivity.
  - destruct (Ascii.eqb a sep); [discriminate|].
    intros H. destruct (IH H) as [E F]. split; congruence.
Qed.

End StringFacts.

(** ** Partition mapper *)

Section PartitionMapperFacts.
Import PartitionMapper.

(** One pass of the loop appends the entry's city to the list of its
    partition, and raises nothing. *)
Lemma partition_step_ok (m : gmap string (list string)) (e : string) :
  partition_step m e
  = Ok (<[name_of e := default [] (m !! name_of e) ++ [city_of e]]> m).
Proof.
  unfold partition_step, normalise_pair.
  destruct (split_first colon e) as (rest & E & J).
  rewrite E. simpl. fold (name_of e).
  change (PyStr.join ":" rest) with (PyStr.join (String colon EmptyString) rest).
  rewrite J. fold (city_of e).
  destruct (m !! name_of e); reflexivity.
Qed.

Lemma partition_loop_ok (l : list string) (m : gmap string (list string)) :
  exists m', partition_loop l m = Ok m'.
Proof.
  revert m. induction l as [|e l IH]; intros m; simpl; [eauto|].
  rewrite partition_step_ok. simpl. apply IH.
Qed.

(** What the loop leaves under a key. *)
Lemma partition_loop_lookup (l : list string) (m m' : gmap string (list string))
    (name : string) :
  partition_loop l m = Ok m' ->
  m' !! name
  = match cities_named name l with
    | [] => m !! name
    | _ :: _ => Some (default [] (m !! name) ++ cities_named name l)
    end.
Proof.
  revert m. induction l as [|e l IH]; intros m; simpl.
  - intros [= ->]. reflexivity.
  - rewrite partition_step_ok. simpl. intros H. rewrite (IH _ H).
    unfold cities_named. rewrite filter_cons.
    destruct (decide (name_of e = name)) as [<-|Hne].
    + rewrite lookup_insert_eq. simpl.
      rewrite <- app_assoc. simpl.
      destruct (map _ (filter _ l));
        [destruct (m !! name_of e); reflexivity | reflexivity].
    + rewrite lookup_insert_ne by exact Hne. reflexivity.
Qed.

Lemma concat_map_perm {A B : Type} (f : A -> list B) (l l' : list A) :
  l ≡ₚ l' -> concat (map f l) ≡ₚ concat (map f l').
Proof.
  induction 1 as [|x l l' _ IH|x y l|l1 l2 l3 _ IH1 _ IH2]; simpl.
  - reflexivity.
  - by rewrite IH.
  - rewrite !app_assoc. f_equiv. apply Permutation_app_comm.
  - by rewrite IH1.
Qed.

(** Appending a city to one partition adds exactly that city to the
    flattened list. *)
Lemma all_cities_of_append (m : gmap string (list string)) (name city : string) :
  all_cities_of (<[name := default [] (m !! name) ++ [city]]> m)
  ≡ₚ all_cities_of m ++ [city].
Proof.
  unfold all_cities_of.
  destruct (m !! name) as [cities|] eqn:E; simpl.
  - rewrite <- (insert_delete_eq m).
    rewrite <- (insert_delete_id m name cities E) at 2.
    rewrite !(concat_map_perm snd _ _ (map_to_list_insert _ _ _ (lookup_delete_eq m name))).
    simpl. rewrite <- !app_assoc. f_equiv. apply Permutation_app_comm.
  - rewrite (concat_map_perm snd _ _ (map_to_list_insert _ _ _ E)).
    simpl. apply Permutation_cons_append.
Qed.

Lemma partition_loop_all_cities (l : list string) (m m' : gmap string (list string)) :
  partition_loop l m = Ok m' ->
  all_cities_of m' ≡ₚ all_cities_of m ++ map city_of l.
Proof.
  revert m. induction l as [|e l IH]; intros m; simpl.
  - intros [= ->]. by rewrite app_nil_r.
  - rewrite partition_step_ok. simpl. intros H.
    rewrite (IH _ H), all_cities_of_append, <- app_assoc. reflexivity.
Qed.

End PartitionMapperFacts.

Section PartitionMapperClaims.
Import PartitionMapper.

(** C5.  For every input list whose entries all hold a colon, the mapper
    returns a mapping and, each entry being its partition name (the text
    before its first colon, itself free of colons), a colon and its city
    (all the text after that colon, further colons included): under every
    partition name the mapping holds the cities of the entries of that
    name in input order, a name without entry being absent, and the
    mapping flattened is a rearrangement of the input cities, so every
    entry contributes exactly one city. *)
Theorem partition_mapper_order_and_coverage (pair_list : list string) :
  Forall (fun e => PyStr.contains colon e = true) pair_list ->
  exists m,
    extract_partition_pairs_from_cli (Some pair_list) = Ok m
    /\ (forall e, e ∈ pair_list ->
          e = String.append (name_of e) (String colon (city_of e))
          /\ PyStr.contains colon (name_of e) = false)
    /\ (forall name, m !! name = entry_of (cities_named name pair_list))
    /\ all_cities_of m ≡ₚ map city_of pair_list.
Proof.
  intros Hcolon. simpl.
  destruct (partition_loop_ok pair_list ∅) as [m Hm].
  exists m. split; [exact Hm|]. split; [|split].
  - intros e He. apply first_decompose.
    rewrite Forall_forall in Hcolon. by apply Hcolon.
  - intros name. rewrite (partition_loop_lookup _ _ _ name Hm).
    rewrite lookup_empty. simpl. by destruct (cities_named name pair_list).
  - rewrite (partition_loop_all_cities _ _ _ Hm).
    unfold all_cities_of. by rewrite map_to_list_empty.
Qed.

Lemma partition_mapper_order_and_coverage_witness :
  Forall (fun e => PyStr.contains colon e = true)
    ["us_west:seattle"; "us_east:new york"; "us_west:los angeles:ca"]%string
  /\ exists m,
       extract_partition_pairs_from_cli
         (Some ["us_west:seattle"; "us_east:new york"; "us_west:los angeles:ca"]%string)
       = Ok m
       /\ m !! "us_west"%string = Some ["seattle"; "los angeles:ca"]%string
       /\ m !! "us_east"%string = Some ["new york"]%string.
Proof.
  assert (H : Forall (fun e => PyStr.contains colon e = true)
                ["us_west:seattle"; "us_east:new york"; "us_west:los angeles:ca"]%string)
    by (repeat constructor).
  split; [exact H|].
  destruct (partition_mapper_order_and_coverage _ H) as (m & E & _ & L & _).
  exists m. split; [exact E|].
  split; rewrite L; reflexivity.
Defined.

(** C6, the input on which the claim fails: the entry [seattle] holds no
    colon, and the mapper raises nothing; it returns a mapping in which the
    whole entry is a partition name whose only city is the empty string. *)
Lemma partition_mapper_accepts_colonless_entry :
  PyStr.contains colon "seattle" = false
  /\ extract_partition_pairs_from_cli (Some ["seattle"%string])
     = Ok {[ "seattle"%string := [EmptyString] ]}
  /\ forall e, extract_partition_pairs_from_cli (Some ["seattle"%string]) <> Raise e.
Proof.
  split; [reflexivity|].
  assert (E : extract_partition_pairs_from_cli (Some ["seattle"%string])
              = Ok {[ "seattle"%string := [EmptyString] ]}).
  { simpl. rewrite partition_step_ok. reflexivity. }
  split; [exact E|]. intros e. rewrite E. discriminate.
Qed.

(** C6 as the code has it.  The mapper raises on no input at all, with or
    without colons in the entries: it always returns a mapping. *)
Theorem partition_mapper_never_raises (pair_list : option (list string)) :
  exists m, extract_partition_pairs_from_cli pair_list = Ok m.
Proof.
  destruct pair_list as [l|]; simpl; [apply partition_loop_ok|eauto].
Qed.

(** C7, the input on which the claim fails: an empty list is not an absent
    one; it is mapped to the empty mapping, which is not the default. *)
Lemma partition_mapper_empty_list_not_default :
  extract_partition_pairs_from_cli (Some []) = Ok ∅
  /\ extract_partition_pairs_from_cli (Some []) <> Ok DEFAULT_PARTITION_MAP.
Proof.
  split; [reflexivity|]. simpl. intros H.
  assert (L : (∅ : gmap string (list string)) !! "us_east"%string
              = DEFAULT_PARTITION_MAP !! "us_east"%string) by congruence.
  unfold DEFAULT_PARTITION_MAP in L.
  rewrite lookup_empty, lookup_insert_eq in L. discriminate.
Qed.

(** C7 as the code has it.  An absent input ([None]) gives the built-in
    default mapping, which has three partitions of three cities each; an
    empty list gives the empty mapping. *)
Theorem partition_mapper_default_when_absent :
  extract_partition_pairs_from_cli None = Ok DEFAULT_PARTITION_MAP
  /\ size DEFAULT_PARTITION_MAP = 3%nat
  /\ map_Forall (fun _ cities => length cities = 3%nat) DEFAULT_PARTITION_MAP
  /\ DEFAULT_PARTITION_MAP !! "us_east"%string
     = Some ["new york"; "boston"; "washington dc"]%string
  /\ DEFAULT_PARTITION_MAP !! "us_west"%string
     = Some ["san francisco"; "seattle"; "los angeles"]%string
  /\ DEFAULT_PARTITION_MAP !! "eu_west"%string
     = Some ["amsterdam"; "paris"; "rome"]%string
  /\ extract_partition_pairs_from_cli (Some []) = Ok ∅.
Proof.
  split; [reflexivity|]. unfold DEFAULT_PARTITION_MAP.
  split; [|split].
  - rewrite !map_size_insert_None, map_size_empty; [reflexivity|..];
      by simplify_map_eq.
  - repeat apply map_Forall_insert_2; try reflexivity. apply map_Forall_empty.
  - repeat split; by simplify_map_eq.
Qed.

End PartitionMapperClaims.

(** ** Load distributor *)

Section LoadDistributorFacts.
Import LoadDistributor.

(** The ceiling of a quotient of positive integers: the least multiplier
    of the divisor that reaches the dividend. *)
Lemma ceil_div_pos (a b : Z) :
  1 <= a -> 1 <= b ->
  exists c, ceil_div a b = Ok c /\ 1 <= c /\ a <= c * b /\ (c - 1) * b < a.
Proof.
  intros Ha Hb. unfold ceil_div.
  destruct (Z.eqb_spec b 0) as [->|_]; [lia|].
  exists (- (- a / b)). split; [reflexivity|].
  pose proof (Z.div_mod (- a) b ltac:(lia)) as Hdm.
  pose proof (Z.mod_pos_bound (- a) b ltac:(lia)) as Hr.
  nia.
Qed.

Lemma ceil_div_nonzero (a b : Z) : b <> 0 -> exists c, ceil_div a b = Ok c.
Proof.
  intros Hb. unfold ceil_div.
  destruct (Z.eqb_spec b 0); [contradiction|eauto].
Qed.

Variables nu nv nr : Z.






End LoadDistributorFacts.

Section LoadDistributorClaims.
Import LoadDistributor.






End LoadDistributorClaims.

Example distribute_five_cities_four_threads :
  map LoadDistributor.t_cities
    (LoadDistributor.started_threads
       (fst (LoadDistributor.distribute
               ["new york"; "boston"; "washington dc"; "seattle"; "paris"]%string
               50 500 10 4)))
  = [["new york"; "boston"]; ["washington dc"; "seattle"]; ["paris"]]%string.
Proof. reflexivity. Qed.

(** ** Bulk loader *)

Section BulkLoaderFacts.
Import BulkLoader.

Variable flag : nat -> bool.
Variables nu nv nr : Z.

Lemma load_city_txns (city : string) :
  Forall (fun e => is_check e = false) (load_city nu nv nr city).
Proof.
  unfold load_city, add_users, add_vehicles, add_rides.
  rewrite !Forall_app, !Forall_map. repeat split; by apply Forall_true.
Qed.

Lemma load_city_lookup_check (city city' : string) (t : nat) :
  load_city nu nv nr city !! t <> Some (ReadFlag city').
Proof.
  intros H. apply list_elem_of_lookup_2 in H.
  pose proof (load_city_txns city) as F. rewrite Forall_forall in F.
  specialize (F _ H). discriminate.
Qed.

(** A check that sees the flag set is the last thing the loop does. *)
Lemma load_cities_stop (cities : list string) (clock t : nat) (city : string) :
  load_cities flag clock nu nv nr cities !! t = Some (ReadFlag city) ->
  flag (clock + t) = true ->
  length (load_cities flag clock nu nv nr cities) = S t.
Proof.
  revert clock t. induction cities as [|c rest IH]; intros clock t; [discriminate|].
  cbn [load_cities]. destruct (flag clock) eqn:Fc.
  - destruct t as [|t]; [reflexivity|discriminate].
  - destruct t as [|t]; [rewrite Nat.add_0_r; congruence|].
    rewrite lookup_cons_ne_0 by lia. change (Init.Nat.pred (S t)) with t.
    intros H Ft.
    destruct (decide (t < length (load_city nu nv nr c))%nat) as [Hlt|Hge].
    + rewrite lookup_app_l in H by exact Hlt. by apply load_city_lookup_check in H.
    + rewrite lookup_app_r in H by lia.
      apply IH in H.
      * cbn [length]. rewrite length_app, H. lia.
      * rewrite <- Ft. f_equal. lia.
Qed.

(** A check that sees the flag unset is followed by all the transactions
    of its city, whatever the flag does meanwhile. *)
Lemma load_cities_go (cities : list string) (clock t : nat) (city : string) :
  load_cities flag clock nu nv nr cities !! t = Some (ReadFlag city) ->
  flag (clock + t) = false ->
  take (length (load_city nu nv nr city))
    (drop (S t) (load_cities flag clock nu nv nr cities))
  = load_city nu nv nr city.
Proof.
  revert clock t. induction cities as [|c rest IH]; intros clock t; [discriminate|].
  cbn [load_cities]. destruct (flag clock) eqn:Fc.
  - destruct t as [|t]; [rewrite Nat.add_0_r; congruence|discriminate].
  - destruct t as [|t].
    + intros [= ->] _. rewrite skipn_cons, drop_0. by rewrite take_app_length.
    + rewrite lookup_cons_ne_0 by lia. change (Init.Nat.pred (S t)) with t.
      rewrite skipn_cons. intros H Ft.
      destruct (decide (t < length (load_city nu nv nr c))%nat) as [Hlt|Hge].
      * rewrite lookup_app_l in H by exact Hlt. by apply load_city_lookup_check in H.
      * rewrite lookup_app_r in H by lia.
        apply IH in H.
        -- rewrite drop_app_ge by lia.
           replace (S t - length (load_city nu nv nr c))%nat
             with (S (t - length (load_city nu nv nr c))) by lia.
           exact H.
        -- rewrite <- Ft. f_equal. lia.
Qed.

Lemma checked_load_city (city : string) : checked (load_city nu nv nr city) = [].
Proof.
  pose proof (load_city_txns city) as F.
  induction F as [|e l He _ IHl]; [reflexivity|].
  unfold checked in *. cbn [omap list_omap]. destruct e; [discriminate|exact IHl].
Qed.

(** The cities checked are the first cities of the list, in order. *)
Lemma load_cities_checked (cities : list string) (clock : nat) :
  exists k : nat,
    checked (load_cities flag clock nu nv nr cities) = take k cities.
Proof.
  revert clock. induction cities as [|c rest IH]; intros clock; [by exists 0%nat|].
  cbn [load_cities]. destruct (flag clock).
  - by exists 1%nat.
  - destruct (IH (clock + 1 + length (load_city nu nv nr c))%nat) as [k Hk].
    exists (S k). pose proof (checked_load_city c) as Hc.
    unfold checked in *. cbn [omap list_omap].
    by rewrite omap_app, Hk, Hc.
Qed.

Lemma full_run_cons (city : string) (cities : list string) :
  LoaderBodies.full_run nu nv nr (city :: cities)
  = ReadFlag city :: load_city nu nv nr city
      ++ LoaderBodies.full_run nu nv nr cities.
Proof. reflexivity. Qed.

(** The events of the loop, exactly: the uninterrupted run of the first
    [k] cities, each of whose checks read the flag unset, and then, when
    cities are left, the one check that read the flag set. *)
Lemma load_cities_shape (cities : list string) (clock : nat) :
  exists k : nat,
    (k <= length cities)%nat
    /\ load_cities flag clock nu nv nr cities
       = LoaderBodies.full_run nu nv nr (take k cities)
           ++ match cities !! k with
              | Some city => [ReadFlag city]
              | None => []
              end
    /\ (forall j : nat, (j < k)%nat ->
          flag (clock + length (LoaderBodies.full_run nu nv nr (take j cities)))
          = false)
    /\ (forall city, cities !! k = Some city ->
          flag (clock + length (LoaderBodies.full_run nu nv nr (take k cities)))
          = true).
Proof.
  revert clock. induction cities as [|c rest IH]; intros clock.
  - exists 0%nat. split; [simpl; lia|]. split; [reflexivity|].
    split; [lia|discriminate].
  - cbn [load_cities]. destruct (flag clock) eqn:Fc.
    + exists 0%nat. split; [simpl; lia|]. split; [reflexivity|].
      split; [lia|]. intros _ _. by rewrite Nat.add_0_r.
    + destruct (IH (clock + 1 + length (load_city nu nv nr c))%nat)
        as (k & Hk & E & Hbefore & Hat).
      exists (S k). split; [simpl; lia|]. split; [|split].
      * rewrite E. cbn [take lookup]. rewrite full_run_cons.
        cbn [app]. by rewrite <- app_assoc.
      * intros [|j] Hj.
        -- by rewrite Nat.add_0_r.
        -- cbn [take]. rewrite full_run_cons. cbn [length].
           rewrite length_app, <- (Hbefore j) by lia. f_equal. lia.
      * intros city Hc. cbn [take]. rewrite full_run_cons. cbn [length].
        rewrite length_app, <- (Hat city Hc). f_equal. lia.
Qed.

End BulkLoaderFacts.

Section BulkLoaderClaims.
Import BulkLoader.

(** C3, the input on which the claim fails: one city, 2000 users (two
    chunks), the flag set while the first chunk is being written.  The flag
    is not read again: the second user chunk and the vehicle and ride
    chunks are all started with the flag set. *)
Lemma bulk_loader_starts_chunks_after_stop :
  let flag := fun t : nat => (2 <=? t)%nat in
  fst (load_movr_data flag 2000 1 1 ["seattle"%string])
  = [ReadFlag "seattle"; Txn Users "seattle" 0 1000; Txn Users "seattle" 1000 2000;
     Txn Vehicles "seattle" 0 1; Txn Rides "seattle" 0 1]
  /\ flag 2%nat = true
  /\ ~ no_txn_after_stop flag
         (fst (load_movr_data flag 2000 1 1 ["seattle"%string])).
Proof.
  split; [reflexivity|]. split; [reflexivity|].
  intros H. specialize (H 2%nat Users "seattle"%string 1000 2000 eq_refl).
  discriminate H.
Qed.

(** C3 as the code has it.  The loader reads the flag between cities only,
    at the top of each city's turn, and the cities take their turns in list
    order.  With valid counts it never raises.  A check that finds the flag
    set is the last thing the loader does: no transaction of that city or
    of a later one is started.  A check that finds the flag unset is
    followed by all the chunk transactions of its city, whatever the flag
    becomes meanwhile.  Together: what the loader does is the uninterrupted
    run of the first [k] cities, each city's check directly followed by all
    its transactions, every one of these checks having read the flag unset;
    when cities are left, one more check follows, the check of the next
    city, which read the flag set, and nothing after it.  So a loader that
    never sees the flag set loads every city, and no transaction of a city
    is started before that city's check. *)
Theorem bulk_loader_stops_between_cities (flag : nat -> bool)
    (num_users num_vehicles num_rides : Z) (cities : list string) :
  0 < num_users -> 0 < num_vehicles -> 0 < num_rides ->
  snd (load_movr_data flag num_users num_vehicles num_rides cities) = Ok tt
  /\ (exists k : nat,
        checked (fst (load_movr_data flag num_users num_vehicles num_rides cities))
        = take k cities)
  /\ (forall (t : nat) city,
        fst (load_movr_data flag num_users num_vehicles num_rides cities) !! t
          = Some (ReadFlag city) ->
        flag t = true ->
        length (fst (load_movr_data flag num_users num_vehicles num_rides cities))
          = S t)
  /\ (forall (t : nat) city,
        fst (load_movr_data flag num_users num_vehicles num_rides cities) !! t
          = Some (ReadFlag city) ->
        flag t = false ->
        take (length (load_city num_users num_vehicles num_rides city))
          (drop (S t)
             (fst (load_movr_data flag num_users num_vehicles num_rides cities)))
        = load_city num_users num_vehicles num_rides city)
  /\ (exists k : nat,
        (k <= length cities)%nat
        /\ fst (load_movr_data flag num_users num_vehicles num_rides cities)
           = LoaderBodies.full_run num_users num_vehicles num_rides (take k cities)
               ++ match cities !! k with
                  | Some city => [ReadFlag city]
                  | None => []
                  end
        /\ (forall j : nat, (j < k)%nat ->
              flag (length (LoaderBodies.full_run num_users num_vehicles num_rides
                              (take j cities))) = false)
        /\ (forall city, cities !! k = Some city ->
              flag (length (LoaderBodies.full_run num_users num_vehicles num_rides
                              (take k cities))) = true)).
Proof.
  intros Hu Hv Hr. unfold load_movr_data.
  destruct (Z.leb_spec num_users 0); [lia|].
  destruct (Z.leb_spec num_rides 0); [lia|].
  destruct (Z.leb_spec num_vehicles 0); [lia|].
  cbn [orb fst snd]. split; [reflexivity|]. split; [|split; [|split]].
  - apply load_cities_checked.
  - intros t city. apply load_cities_stop.
  - intros t city. apply load_cities_go.
  - apply (load_cities_shape flag num_users num_vehicles num_rides cities 0).
Qed.

Lemma bulk_loader_stops_between_cities_witness :
  0 < 2000 /\ 0 < 1 /\ 0 < 1
  /\ length (fst (load_movr_data (fun t : nat => (2 <=? t)%nat) 2000 1 1
                    ["seattle"; "paris"]%string)) = 6%nat.
Proof.
  split; [lia|]. split; [lia|]. split; [lia|].
  destruct (bulk_loader_stops_between_cities (fun t : nat => (2 <=? t)%nat)
              2000 1 1 ["seattle"; "paris"]%string) as (_ & _ & Hstop & _);
    [lia..|].
  exact (Hstop 5%nat "paris"%string eq_refl eq_refl).
Defined.

End BulkLoaderClaims.

(** ** Validation of the configuration *)

Lemma Qltb_lt (x y : Q) : WorkloadSimulator.Qltb x y = true <-> (x < y)%Q.
Proof.
  unfold WorkloadSimulator.Qltb. rewrite negb_true_iff.
  split.
  - intros H. apply Qnot_le_lt. intros Hle.
    apply Qle_bool_iff in Hle. congruence.
  - intros H. destruct (Qle_bool y x) eqn:E; [|reflexivity].
    apply Qle_bool_iff in E. exfalso. by apply (Qlt_not_le x y).
Qed.

(** The checks on numbers.  When a count is zero or negative the data
    loader raises its configuration error ([ValueError]) having done
    nothing: no connection is opened, no thread started.  When the read
    fraction is a number below 0 or above 1 the load generator raises its
    configuration error having done nothing: no warm-up read, no thread
    started.  (The read fraction is a float; the floats that are no
    numbers are treated below, in the section on the read fraction as a
    float.) *)
Theorem configuration_checked_before_work
    (partition_city_map : gmap string (list string)) (all_cities : list string)
    (num_users num_rides num_vehicles num_threads : Z)
    (skip_reload_tables enable_geo_partitioning : bool)
    (get_users get_vehicles : string -> list WorkloadSimulator.entity)
    (get_active_rides : string -> list WorkloadSimulator.ride)
    (read_percentage : Q) (city_list : option (list string)) :
  (num_users <= 0 \/ num_vehicles <= 0 \/ num_rides <= 0 ->
   exists msg,
     LoadDistributor.run_data_loader partition_city_map all_cities num_users
       num_rides num_vehicles num_threads skip_reload_tables
       enable_geo_partitioning
     = ([], Raise (ValueError msg)))
  /\ ((read_percentage < 0 \/ 1 < read_percentage)%Q ->
      exists msg,
        LoadGenerator.run_load_generator get_users get_vehicles get_active_rides
          all_cities read_percentage city_list num_threads
        = ([], Raise (ValueError msg))).
Proof.
  split.
  - intros H. unfold LoadDistributor.run_data_loader.
    destruct (Z.leb_spec num_users 0); [eauto|].
    destruct (Z.leb_spec num_rides 0); [eauto|].
    destruct (Z.leb_spec num_vehicles 0); [eauto|]. lia.
  - intros H. unfold LoadGenerator.run_load_generator.
    destruct (WorkloadSimulator.Qltb read_percentage 0) eqn:E1; [eauto|].
    destruct (WorkloadSimulator.Qltb 1 read_percentage) eqn:E2; [eauto|].
    exfalso. destruct H as [H|H]; apply Qltb_lt in H; congruence.
Qed.

Lemma configuration_checked_before_work_witness :
  (0 <= 0 \/ 10 <= 0 \/ 500 <= 0)
  /\ (3 # 2 < 0 \/ 1 < 3 # 2)%Q
  /\ fst (LoadDistributor.run_data_loader PartitionMapper.DEFAULT_PARTITION_MAP
            ["seattle"%string] 0 500 10 5 false false) = []
  /\ fst (LoadGenerator.run_load_generator (fun _ => []) (fun _ => [])
            (fun _ => []) ["seattle"%string] (3 # 2) None 5) = [].
Proof.
  split; [left; lia|]. split; [right; reflexivity|].
  destruct (configuration_checked_before_work
              PartitionMapper.DEFAULT_PARTITION_MAP ["seattle"%string]
              0 500 10 5 false false (fun _ => []) (fun _ => []) (fun _ => [])
              (3 # 2) None) as [H1 H2].
  destruct H1 as [m1 E1]; [left; lia|].
  destruct H2 as [m2 E2]; [right; reflexivity|].
  rewrite E1, E2. split; reflexivity.
Defined.

(** *** The read fraction as a float *)

Section FloatFacts.
Import FloatReadFraction.

Lemma map_replicate {A B : Type} (f : A -> B) (n : nat) (x : A) :
  map f (replicate n x) = replicate n (f x).
Proof. induction n as [|n IH]; [reflexivity|]. cbn [replicate map]. by rewrite IH. Qed.

Lemma warm_up_no_value_error
    (get_users get_vehicles : string -> list WorkloadSimulator.entity)
    (get_active_rides : string -> list WorkloadSimulator.ride)
    (cities : list string) (objs : gmap string WorkloadSimulator.registry)
    (rides : list WorkloadSimulator.ride) (msg : string) :
  snd (LoadGenerator.warm_up get_users get_vehicles get_active_rides cities objs rides)
  <> Raise (ValueError msg).
Proof.
  revert objs rides. induction cities as [|c rest IH]; intros objs rides.
  - discriminate.
  - cbn [LoadGenerator.warm_up].
    destruct (_ || _)%bool; [discriminate|].
    specialize (IH (<[c := WorkloadSimulator.mkRegistry (get_users c) (get_vehicles c)]> objs)
                  (rides ++ get_active_rides c)).
    destruct (LoadGenerator.warm_up _ _ _ rest _ _) as [events r]. exact IH.
Qed.

(** On a finite number the generator on floats does what the generator on
    numbers does. *)
Lemma run_load_generator_finite
    (get_users get_vehicles : string -> list WorkloadSimulator.entity)
    (get_active_rides : string -> list WorkloadSimulator.ride)
    (all_cities : list string) (q : Q) (city_list : option (list string))
    (num_threads : Z) :
  run_load_generator get_users get_vehicles get_active_rides all_cities
    (Finite q) city_list num_threads
  = (map of_number
       (fst (LoadGenerator.run_load_generator get_users get_vehicles
               get_active_rides all_cities q city_list num_threads)),
     snd (LoadGenerator.run_load_generator get_users get_vehicles
            get_active_rides all_cities q city_list num_threads)).
Proof.
  unfold run_load_generator, LoadGenerator.run_load_generator, float_gt.
  cbn [float_lt].
  destruct (_ || _)%bool; [reflexivity|].
  destruct (LoadGenerator.warm_up _ _ _ _ _ _) as [events [[objs rides]|e]];
    cbn [fst snd map]; [|reflexivity].
  by rewrite map_app, map_cons, map_replicate.
Qed.

End FloatFacts.

(** C9, the input on which the code fails the claim: a read fraction that
    is NaN.  NaN is not a value between 0 and 1, and both comparisons of
    the check are false on it; so whatever the storage holds, the load
    generator raises no configuration error: it logs, opens the database
    and enters the warm-up, and on a storage with seed data it reads the
    users, the vehicles and the active rides and starts its threads, which
    are handed NaN and never choose to read.  The check does reject every
    other value outside the interval: the two infinities here, the finite
    numbers in [configuration_checked_before_work] through
    [run_load_generator_finite]. *)
Theorem load_generator_accepts_nan :
  (forall (get_users get_vehicles : string -> list WorkloadSimulator.entity)
          (get_active_rides : string -> list WorkloadSimulator.ride)
          (all_cities : list string) (city_list : option (list string))
          (num_threads : Z),
     exists events r,
       FloatReadFraction.run_load_generator get_users get_vehicles
         get_active_rides all_cities FloatReadFraction.NaN city_list num_threads
       = (FloatReadFraction.Log "simulating movr load for cities %s"
            :: FloatReadFraction.Log "warming up...."
            :: FloatReadFraction.OpenMovR :: events, r)
       /\ forall msg, r <> Raise (ValueError msg))
  /\ FloatReadFraction.run_load_generator MoreSamples.stored_users
       MoreSamples.stored_vehicles MoreSamples.stored_rides ["seattle"%string]
       FloatReadFraction.NaN None 2
     = (let a :=
          FloatReadFraction.mkThreadArgs ["seattle"%string]
            {[ "seattle"%string :=
                 WorkloadSimulator.mkRegistry [WorkloadSimulator.mkEntity "u1"]
                   [WorkloadSimulator.mkEntity "v1"] ]}
            [WorkloadSimulator.mkRide "seattle" "r1"] FloatReadFraction.NaN in
        [FloatReadFraction.Log "simulating movr load for cities %s";
         FloatReadFraction.Log "warming up....";
         FloatReadFraction.OpenMovR;
         FloatReadFraction.GetUsers "seattle";
         FloatReadFraction.GetVehicles "seattle";
         FloatReadFraction.GetActiveRides "seattle";
         FloatReadFraction.Log "starting load";
         FloatReadFraction.StartThread a; FloatReadFraction.StartThread a],
        Ok tt)
  /\ (forall r : Q, FloatReadFraction.random_below r FloatReadFraction.NaN = false)
  /\ (forall (get_users get_vehicles : string -> list WorkloadSimulator.entity)
             (get_active_rides : string -> list WorkloadSimulator.ride)
             (all_cities : list string) (city_list : option (list string))
             (num_threads : Z),
        FloatReadFraction.run_load_generator get_users get_vehicles
          get_active_rides all_cities FloatReadFraction.PosInf city_list num_threads
        = ([], Raise (ValueError "read percentage must be between 0 and 1"))
        /\ FloatReadFraction.run_load_generator get_users get_vehicles
             get_active_rides all_cities FloatReadFraction.NegInf city_list
             num_threads
           = ([], Raise (ValueError "read percentage must be between 0 and 1"))).
Proof.
  split; [|split; [|split]].
  - intros gu gv gr all_cities city_list nt.
    unfold FloatReadFraction.run_load_generator. cbn [FloatReadFraction.float_lt
      FloatReadFraction.float_gt orb].
    pose proof (warm_up_no_value_error gu gv gr
                  (match city_list with None => all_cities | Some l => l end)
                  ∅ []) as Hw.
    destruct (LoadGenerator.warm_up _ _ _ _ _ _) as [events [[objs rides]|e]].
    + eexists _, _. split; [reflexivity|discriminate].
    + eexists _, _. split; [reflexivity|].
      intros msg [= ->]. by apply (Hw msg).
  - reflexivity.
  - reflexivity.
  - intros. split; reflexivity.
Qed.

(** ** Workload simulator: the choice of the operation *)

Section SelectionFacts.
Import WorkloadSimulator.

Lemma clamp01_id (p : Q) : (0 <= p)%Q -> (p <= 1)%Q -> (clamp01 p == p)%Q.
Proof.
  intros H0 H1. unfold clamp01.
  destruct (Qle_bool p 0) eqn:E0.
  - apply Qle_bool_iff in E0. lra.
  - destruct (Qle_bool 1 p) eqn:E1; [|reflexivity].
    apply Qle_bool_iff in E1. lra.
Qed.

(** The ratios for any read fraction between 0 and 1. *)
Lemma selection_ratios (read_percentage : Q) :
  (0 <= read_percentage)%Q -> (read_percentage <= 1)%Q ->
  (Pr (select_dist read_percentage) Read == read_percentage
   /\ Pr (select_dist read_percentage) SignUp == (1 - read_percentage) * (1 # 10)
   /\ Pr (select_dist read_percentage) AddVehicle
      == (1 - read_percentage) * (9 # 10) * (1 # 10)
   /\ Pr (select_dist read_percentage) StartRide
      == (1 - read_percentage) * (9 # 10) * (9 # 10) * (1 # 2)
   /\ Pr (select_dist read_percentage) EndRide
      == (1 - read_percentage) * (9 # 10) * (9 # 10) * (1 # 2))%Q.
Proof.
  intros H0 H1. pose proof (clamp01_id _ H0 H1) as Hc.
  unfold select_dist, select_operation, dist_bind, dist_random_lt, dist_ret, Pr.
  change (clamp01 (1 # 10)) with (1 # 10)%Q.
  change (clamp01 (1 # 2)) with (1 # 2)%Q.
  generalize dependent (clamp01 read_percentage). intros c Hc.
  repeat split; cbn [flat_map map app fold_right fst snd];
    repeat match goal with
           | |- context [decide (?a = ?b)] =>
               destruct (decide (a = b)); try discriminate; try congruence
           end; lra.
Qed.
End SelectionFacts.

Section CountingFacts.
Import WorkloadSimulator.

Lemma count_if_cons {A : Type} (f : A -> bool) (x : A) (l : list A) :
  count_if f (x :: l) = ((if f x then 1 else 0) + count_if f l)%nat.
Proof.
  unfold count_if. rewrite filter_cons.
  destruct (f x); destruct (decide _); simpl; congruence.
Qed.

Lemma count_if_app {A : Type} (f : A -> bool) (l1 l2 : list A) :
  count_if f (l1 ++ l2) = (count_if f l1 + count_if f l2)%nat.
Proof. unfold count_if. by rewrite filter_app, length_app. Qed.

Lemma count_if_ext {A : Type} (f g : A -> bool) (l : list A) :
  (forall x, f x = g x) -> count_if f l = count_if g l.
Proof.
  intros H. induction l as [|x l IH]; [reflexivity|].
  by rewrite !count_if_cons, H, IH.
Qed.

Lemma count_if_true {A : Type} (l : list A) : count_if (fun _ => true) l = length l.
Proof.
  induction l as [|x l IH]; [reflexivity|]. rewrite count_if_cons, IH. reflexivity.
Qed.

Lemma count_if_false {A : Type} (l : list A) : count_if (fun _ => false) l = 0%nat.
Proof.
  induction l as [|x l IH]; [reflexivity|]. rewrite count_if_cons, IH. reflexivity.
Qed.

Lemma count_if_negb {A : Type} (f : A -> bool) (l : list A) :
  (count_if f l + count_if (fun x => negb (f x)) l = length l)%nat.
Proof.
  induction l as [|x l IH]; [reflexivity|].
  rewrite !count_if_cons. destruct (f x); simpl; lia.
Qed.

Lemma count_if_map {A B : Type} (h : A -> B) (f : B -> bool) (l : list A) :
  count_if f (map h l) = count_if (fun x => f (h x)) l.
Proof.
  induction l as [|x l IH]; [reflexivity|].
  cbn [map]. by rewrite !count_if_cons, IH.
Qed.

(** Counting on a product: the tests on the two sides multiply. *)
Lemma count_if_prod {A B : Type} (f : A -> bool) (g : B -> bool)
    (l1 : list A) (l2 : list B) :
  count_if (fun ab => f (fst ab) && g (snd ab)) (list_prod l1 l2)
  = (count_if f l1 * count_if g l2)%nat.
Proof.
  induction l1 as [|a l1 IH]; [reflexivity|].
  cbn [list_prod]. rewrite count_if_app, count_if_map, IH, count_if_cons.
  cbn [fst snd]. destruct (f a); cbn [andb].
  - set (n := count_if g l2). change (count_if (fun x : B => g x) l2) with n. lia.
  - rewrite count_if_false. lia.
Qed.

(** Of the numbers below [N], those below [c]. *)
Lemma count_if_seq_below (c N : nat) :
  count_if (fun k => (k <? c)%nat) (seq 0 N) = Nat.min c N.
Proof.
  induction N as [|N IH]; [by rewrite Nat.min_0_r|].
  rewrite seq_S, count_if_app, IH, count_if_cons. cbn [Nat.add].
  destruct (Nat.ltb_spec N c); change (count_if _ []) with 0%nat; lia.
Qed.

(** A value of the grid of resolution [N] is below [a/b] when its
    numerator is below [a N / b]. *)
Lemma grid_below (N : nat) (a : Z) (b : positive) (c : nat) :
  (0 < N)%nat ->
  (forall k : nat, Z.of_nat k * Z.pos b < a * Z.of_nat N <-> (k < c)%nat) ->
  count_if (fun q => Qltb q (a # b)) (grid N) = Nat.min c N.
Proof.
  intros HN Hc. unfold grid. rewrite count_if_map, <- count_if_seq_below.
  apply count_if_ext. intros k.
  unfold Qltb, Qle_bool. cbn [Qnum Qden].
  replace (Z.pos (Pos.of_nat N)) with (Z.of_nat N)
    by lia.
  specialize (Hc k).
  destruct (Z.leb_spec (a * Z.of_nat N) (Z.of_nat k * Z.pos b));
    destruct (Nat.ltb_spec k c); cbn [negb]; try reflexivity; lia.
Qed.

Lemma length_grid (N : nat) : length (grid N) = N.
Proof. unfold grid. by rewrite length_map, length_seq. Qed.

(** The first value of the pair taken by [select_drawn], test by test. *)
Lemma select_drawn_tests (tape : nat -> Q) (read_percentage : Q) :
  select_drawn tape read_percentage 0%nat
  = if Qltb (tape 0%nat) read_percentage then (Read, 1%nat)
    else if Qltb (tape 1%nat) (1 # 10) then (SignUp, 2%nat)
    else if Qltb (tape 2%nat) (1 # 10) then (AddVehicle, 3%nat)
    else if Qltb (tape 3%nat) (1 # 2) then (StartRide, 4%nat)
    else (EndRide, 4%nat).
Proof.
  unfold select_drawn, select_operation, drawn_bind, drawn_random_lt, drawn_ret.
  destruct (Qltb (tape 0%nat) read_percentage); [reflexivity|].
  destruct (Qltb (tape 1%nat) (1 # 10)); [reflexivity|].
  destruct (Qltb (tape 2%nat) (1 # 10)); [reflexivity|].
  destruct (Qltb (tape 3%nat) (1 # 2)); reflexivity.
Qed.

(** A tape leads to an operation when its four values pass the four tests
    of that operation. *)
Lemma select_drawn_tests_of (read_percentage : Q) (op : operation)
    (t : Q * Q * Q * Q) :
  fst (select_drawn (tape_of t) read_percentage 0%nat) = op
  <-> (let '(f1, f2, f3, f4) := tests_of read_percentage op in
       f1 (fst (fst (fst t))) && f2 (snd (fst (fst t))) && f3 (snd (fst t))
         && f4 (snd t)) = true.
Proof.
  destruct t as [[[a b] c] d]. rewrite select_drawn_tests. cbn [tape_of fst snd].
  destruct op; cbn [tests_of];
    destruct (Qltb a read_percentage), (Qltb b (1 # 10)), (Qltb c (1 # 10)),
      (Qltb d (1 # 2)); cbn [fst negb andb]; split; congruence.
Qed.

(** The tapes of a grid that lead to an operation: the product of the
    numbers of values that pass each of its four tests. *)
Lemma frequency_product (N : nat) (read_percentage : Q) (op : operation) :
  frequency N read_percentage op
  = (let '(f1, f2, f3, f4) := tests_of read_percentage op in
     count_if f1 (grid N) * count_if f2 (grid N) * count_if f3 (grid N)
       * count_if f4 (grid N))%nat.
Proof.
  unfold frequency, tapes.
  rewrite (list_filter_iff _ _ _ (select_drawn_tests_of read_percentage op)).
  destruct (tests_of read_percentage op) as [[[f1 f2] f3] f4].
  change (length (filter _ ?l))
    with (count_if (fun t : Q * Q * Q * Q =>
                      f1 (fst (fst (fst t))) && f2 (snd (fst (fst t)))
                        && f3 (snd (fst t)) && f4 (snd t)) l).
  rewrite (count_if_prod
             (fun abc : Q * Q * Q =>
                f1 (fst (fst abc)) && f2 (snd (fst abc)) && f3 (snd abc)) f4).
  rewrite (count_if_prod (fun ab : Q * Q => f1 (fst ab) && f2 (snd ab)) f3).
  by rewrite (count_if_prod f1 f2).
Qed.

(** The frequencies on every grid whose resolution is a multiple of ten:
    the parts 0, 1/10, 9/100, 81/200 and 81/200 of its [N^4] tapes. *)
Lemma selection_frequencies (m : nat) :
  let N := (10 * S m)%nat in
  frequency N 0 Read = 0%nat
  /\ (frequency N 0 SignUp * 10 = N ^ 4)%nat
  /\ (frequency N 0 AddVehicle * 100 = 9 * N ^ 4)%nat
  /\ (frequency N 0 StartRide * 200 = 81 * N ^ 4)%nat
  /\ (frequency N 0 EndRide * 200 = 81 * N ^ 4)%nat.
Proof.
  intros N.
  assert (H0 : count_if (fun q => Qltb q 0) (grid N) = 0%nat).
  { rewrite (grid_below N 0 1 0) by (subst N; lia). reflexivity. }
  assert (H1 : count_if (fun q => Qltb q (1 # 10)) (grid N) = S m).
  { rewrite (grid_below N 1 10 (S m)) by (subst N; lia). subst N; lia. }
  assert (H2 : count_if (fun q => Qltb q (1 # 2)) (grid N) = (5 * S m)%nat).
  { rewrite (grid_below N 1 2 (5 * S m)) by (subst N; lia). subst N; lia. }
  pose proof (count_if_negb (fun q => Qltb q 0) (grid N)) as C0.
  pose proof (count_if_negb (fun q => Qltb q (1 # 10)) (grid N)) as C1.
  pose proof (count_if_negb (fun q => Qltb q (1 # 2)) (grid N)) as C2.
  rewrite length_grid, ?H0, ?H1, ?H2 in C0, C1, C2.
  rewrite !frequency_product. cbn [tests_of].
  rewrite !count_if_true, !length_grid, ?H0, ?H1, ?H2.
  assert (E0 : count_if (fun q => negb (Qltb q 0)) (grid N) = N) by lia.
  assert (E1 : count_if (fun q => negb (Qltb q (1 # 10))) (grid N) = (9 * S m)%nat)
    by (subst N; lia).
  assert (E2 : count_if (fun q => negb (Qltb q (1 # 2))) (grid N) = (5 * S m)%nat)
    by (subst N; lia).
  rewrite E0, E1, E2. subst N. cbn [Nat.pow]. repeat split; lia.
Qed.
End CountingFacts.

Section SelectionClaims.
Import WorkloadSimulator.

(** C2, on which the claim fails: with a read fraction of zero the first
    write coin alone decides the signup, so a signup has probability 1/10
    and not 9/100, and the later figures shift accordingly. *)
Lemma selection_ratios_not_as_claimed :
  ~ claimed_ratios (Pr (select_dist 0))
  /\ ~ (Pr (select_dist 0) SignUp == 9 # 100)%Q
  /\ ~ (Pr (select_dist 0) AddVehicle == 81 # 1000)%Q
  /\ ~ (Pr (select_dist 0) StartRide == 829 # 2000)%Q
  /\ ~ (Pr (select_dist 0) EndRide == 829 # 2000)%Q.
Proof.
  assert (H : ~ (Pr (select_dist 0) SignUp == 9 # 100)%Q) by (vm_compute; discriminate).
  split; [intros (_ & H' & _); exact (H H')|].
  split; [exact H|]. repeat split; vm_compute; discriminate.
Qed.

(** C2 as the code has it.  The operation is chosen by coins tossed one
    after the other in program order: read against write on the first
    value drawn, then signup on the second, then add-vehicle on the third,
    then start-ride against end-ride on the fourth, each value being drawn
    only when control reaches its test.  With a read fraction of zero the
    probabilities are 0 for a read, 1/10 for a signup, 9/100 for
    add-vehicle, and 81/200 for each of start-ride and end-ride; and these
    are the parts of the tapes that lead to each operation, on every grid
    of equally likely values whose resolution is a multiple of ten. *)
Theorem selection_order_and_ratios :
  (forall (tape : nat -> Q) (read_percentage : Q),
     select_drawn tape read_percentage 0%nat
     = if Qltb (tape 0%nat) read_percentage then (Read, 1%nat)
       else if Qltb (tape 1%nat) (1 # 10) then (SignUp, 2%nat)
       else if Qltb (tape 2%nat) (1 # 10) then (AddVehicle, 3%nat)
       else if Qltb (tape 3%nat) (1 # 2) then (StartRide, 4%nat)
       else (EndRide, 4%nat))
  /\ (Pr (select_dist 0) Read == 0)%Q
  /\ (Pr (select_dist 0) SignUp == 1 # 10)%Q
  /\ (Pr (select_dist 0) AddVehicle == 9 # 100)%Q
  /\ (Pr (select_dist 0) StartRide == 81 # 200)%Q
  /\ (Pr (select_dist 0) EndRide == 81 # 200)%Q
  /\ (forall m : nat,
        let N := (10 * S m)%nat in
        frequency N 0 Read = 0%nat
        /\ (frequency N 0 SignUp * 10 = N ^ 4)%nat
        /\ (frequency N 0 AddVehicle * 100 = 9 * N ^ 4)%nat
        /\ (frequency N 0 StartRide * 200 = 81 * N ^ 4)%nat
        /\ (frequency N 0 EndRide * 200 = 81 * N ^ 4)%nat).
Proof.
  split; [exact select_drawn_tests|].
  repeat (split; [vm_compute; reflexivity|]).
  exact selection_frequencies.
Qed.

(** The same figures counted on tapes: of the 10^4 tapes whose four values
    are tenths, none leads to a read, 1000 lead to a signup, 900 to
    add-vehicle, 4050 to start-ride and 4050 to end-ride. *)
Example selection_frequencies_on_tenths :
  map (frequency 10 0) [Read; SignUp; AddVehicle; StartRide; EndRide]
  = [0; 1000; 900; 4050; 4050]%nat.
Proof. vm_compute. reflexivity. Qed.

End SelectionClaims.

(** ** Workload simulator: the shared state *)

Section SimulatorFacts.
Import BulkLoader WorkloadSimulator.
Context {metadata : Type}.
Variable generate_vehicle_metadata : pyarg -> metadata.

Lemma pop_nil {A : Type} : pop (@nil A) = None.
Proof. reflexivity. Qed.

Lemma pop_snoc {A : Type} (l : list A) (x : A) : pop (l ++ [x]) = Some (x, l).
Proof. unfold pop. rewrite rev_app_distr. simpl. by rewrite rev_involutive. Qed.

Lemma choice_ok {A : Type} (pick : nat) (l : list A) :
  l <> [] -> exists x, choice pick l = Ok x /\ x ∈ l.
Proof.
  intros Hne. unfold choice.
  assert (Hlt : (pick mod length l < length l)%nat).
  { apply Nat.mod_upper_bound. destruct l; [congruence|discriminate]. }
  destruct (nth_error l (pick mod length l)) as [x|] eqn:E.
  - exists x. split; [reflexivity|].
    apply list_elem_of_In. eapply nth_error_In, E.
  - apply nth_error_None in E. lia.
Qed.

(** Ending a ride on an empty pool changes nothing. *)
Lemma perform_end_ride_empty (city : string) (d : draws) (st : state metadata) :
  active_rides st = [] ->
  perform generate_vehicle_metadata EndRide city d st = Ok st.
Proof. intros E. simpl. by rewrite E. Qed.

(** Ending a ride on a pool that is not empty removes its last ride and
    ends that ride in storage. *)
Lemma perform_end_ride_snoc (city : string) (d : draws) (st : state metadata)
    (pool : list ride) (r : ride) :
  active_rides st = pool ++ [r] ->
  perform generate_vehicle_metadata EndRide city d st
  = Ok (mkState (movr_objects st) pool (calls st ++ [end_call r])).
Proof. intros E. simpl. by rewrite E, pop_snoc. Qed.

Lemma iteration_end_ride (cities : list string) (rp : Q) (d : draws)
    (st : state metadata) :
  cities <> [] ->
  fst (select_drawn (randoms d) rp 0%nat) = EndRide ->
  exists city,
    iteration generate_vehicle_metadata cities rp d st
    = perform generate_vehicle_metadata EndRide city d st.
Proof.
  intros Hne Hop. unfold iteration.
  destruct (choice_ok (city_pick d) cities Hne) as (city & E & _).
  exists city. by rewrite E, Hop.
Qed.

(** A run of passes that all end a ride takes the rides off the end of the
    pool one by one, as long as there are any, and touches nothing else. *)
Lemma simulate_end_rides (cities : list string) (rp : Q) (ds : list draws)
    (st : state metadata) :
  cities <> [] ->
  Forall (ends_ride rp) ds ->
  simulate_movr_load generate_vehicle_metadata cities rp ds st
  = Ok (mkState (movr_objects st)
          (take (length (active_rides st) - length ds) (active_rides st))
          (calls st
             ++ map end_call
                  (rev (drop (length (active_rides st) - length ds)
                          (active_rides st)))),
        false).
Proof.
  intros Hne Hds. revert st.
  induction Hds as [|d ds [Hstop Hop] _ IH]; intros st.
  - cbn [simulate_movr_load length]. rewrite Nat.sub_0_r, take_ge, drop_ge by lia.
    simpl. rewrite app_nil_r. by destruct st.
  - cbn [simulate_movr_load]. rewrite Hstop.
    destruct (iteration_end_ride cities rp d st Hne Hop) as [city ->].
    destruct (active_rides st) as [|r pool _] eqn:E using rev_ind.
    + rewrite perform_end_ride_empty by exact E. cbn [bind]. rewrite IH, E.
      reflexivity.
    + rewrite (perform_end_ride_snoc city d st pool r E). cbn [bind].
      rewrite IH. cbn [movr_objects active_rides calls length].
      rewrite length_app. cbn [length].
      replace (length pool + 1 - S (length ds))%nat
        with (length pool - length ds)%nat by lia.
      rewrite take_app_le, drop_app_le by lia.
      rewrite rev_app_distr, <- app_assoc. reflexivity.
Qed.

End SimulatorFacts.

Section SimulatorClaims.
Import BulkLoader WorkloadSimulator.
Context {metadata : Type}.
Variable generate_vehicle_metadata : pyarg -> metadata.

(** Starting a ride puts the new ride at the end of the pool. *)
Lemma perform_start_ride (city : string) (d : draws) (st st1 : state metadata) :
  perform generate_vehicle_metadata StartRide city d st = Ok st1 ->
  movr_objects st1 = movr_objects st
  /\ active_rides st1 = active_rides st ++ [new_ride d].
Proof.
  simpl. destruct (registry_of st city) as [reg|]; [|discriminate]. simpl.
  destruct (choice (rider_pick d) (users reg)); [|discriminate]. simpl.
  destruct (choice (vehicle_pick d) (vehicles reg)); [|discriminate]. simpl.
  intros [= <-]. split; reflexivity.
Qed.

(** C8.  A run of end-ride passes with no start-ride between them, begun
    in any state: the run raises nothing; the pool loses one ride per pass
    while it has any and stays empty afterwards, so its size is the
    original size less the number of passes, never below zero; the rides
    ended in storage are exactly the rides taken off the end of the pool,
    last first, so the pool as it was is the pool that remains followed by
    the rides taken; the registries are untouched; on an empty pool the
    whole state is unchanged; and when the rides of the pool are distinct
    no ride is ended twice and no ended ride remains in the pool.  A ride
    put in the pool by a start is the one the next end takes out, which
    leaves the pool as it was before the start. *)
Theorem active_ride_pool_shrinks (cities : list string) (read_percentage : Q)
    (ds : list draws) (st : state metadata) :
  cities <> [] ->
  Forall (ends_ride read_percentage) ds ->
  exists st' taken,
    simulate_movr_load generate_vehicle_metadata cities read_percentage ds st
      = Ok (st', false)
    /\ movr_objects st' = movr_objects st
    /\ length (active_rides st') = (length (active_rides st) - length ds)%nat
    /\ active_rides st = active_rides st' ++ rev taken
    /\ calls st' = calls st ++ map end_call taken
    /\ (active_rides st = [] -> st' = st)
    /\ (NoDup (active_rides st) ->
        NoDup taken /\ forall r, r ∈ taken -> r ∉ active_rides st')
    /\ (forall city d st1,
          perform generate_vehicle_metadata StartRide city d st = Ok st1 ->
          forall city' d',
            perform generate_vehicle_metadata EndRide city' d' st1
            = Ok (mkState (movr_objects st) (active_rides st)
                    (calls st1 ++ [end_call (new_ride d)]))).
Proof.
  intros Hne Hds.
  set (k := (length (active_rides st) - length ds)%nat).
  exists (mkState (movr_objects st) (take k (active_rides st))
            (calls st ++ map end_call (rev (drop k (active_rides st))))).
  exists (rev (drop k (active_rides st))).
  split; [by apply simulate_end_rides|]. cbn [movr_objects active_rides calls].
  split; [reflexivity|]. split; [rewrite length_take; lia|].
  split; [by rewrite rev_involutive, take_drop|]. split; [reflexivity|].
  split; [|split].
  - intros E. destruct st as [objs pool cs]. simpl in *. subst pool.
    by rewrite take_nil, drop_nil, app_nil_r.
  - intros Hnd. rewrite <- (take_drop k (active_rides st)) in Hnd.
    apply NoDup_app in Hnd as (_ & Hdisj & Hdrop).
    split.
    + by rewrite <- Permutation_rev.
    + intros r Hr Hin. rewrite <- Permutation_rev in Hr. by apply (Hdisj r).
  - intros city d st1 Hstart city' d'.
    destruct (perform_start_ride city d st st1 Hstart) as [Hobj Hpool].
    rewrite (perform_end_ride_snoc generate_vehicle_metadata city' d' st1 _ _ Hpool).
    by rewrite Hobj.
Qed.

(** C10.  Whenever a pass of the simulator adds a vehicle, the metadata
    generator has been called on the Python builtin [type], whatever
    vehicle type was generated for that vehicle; in the bulk loader every
    vehicle of every chunk carries the metadata generated from its own
    type. *)
Theorem vehicle_metadata_argument :
  (forall cities read_percentage d (st st' : state metadata),
     fst (select_drawn (randoms d) read_percentage 0%nat) = AddVehicle ->
     iteration generate_vehicle_metadata cities read_percentage d st = Ok st' ->
     exists active_city owner_id,
       calls st'
       = calls st
           ++ [add_vehicle active_city owner_id (vehicle_type d)
                 (generate_vehicle_metadata PyBuiltinType)
                 (status d) (location d)])
  /\ (forall city owners draws chunk n vs,
        add_vehicles_helper generate_vehicle_metadata city owners draws chunk n
          = Ok vs ->
        Forall (fun v => v_ext v = generate_vehicle_metadata (PyString (v_type v))
                         /\ exists i, v_type v = vd_type (draws i)) vs).
Proof.
  split.
  - intros cities rp d st st' Hop. unfold iteration. rewrite Hop.
    destruct (choice (city_pick d) cities) as [city|]; [|discriminate].
    cbn [bind perform].
    destruct (registry_of st city) as [reg|]; [|discriminate]. cbn [bind].
    destruct (choice (owner_pick d) (users reg)) as [owner|]; [|discriminate].
    cbn [bind]. intros [= <-]. by exists city, (id owner).
  - intros city owners draws chunk n. unfold add_vehicles_helper.
    induction (range chunk n) as [|i l IH]; intros vs; cbn [make_vehicles].
    + intros [= <-]. constructor.
    + unfold make_vehicle at 1.
      destruct (choice (vd_owner (draws i)) owners) as [owner|]; [|discriminate].
      cbn [bind].
      destruct (make_vehicles _ city owners draws l) as [vs'|]; [|discriminate].
      cbn [bind]. intros [= <-]. constructor; [|by apply IH].
      cbn [v_ext v_type]. split; [reflexivity|by exists i].
Qed.

End SimulatorClaims.

Lemma active_ride_pool_shrinks_witness :
  ["seattle"%string] <> []
  /\ Forall (WorkloadSimulator.ends_ride (1 # 2))
       [Samples.end_ride_draws; Samples.end_ride_draws]
  /\ exists st' taken,
       WorkloadSimulator.simulate_movr_load Samples.sample_metadata
         ["seattle"%string] (1 # 2)
         [Samples.end_ride_draws; Samples.end_ride_draws] Samples.sample_state
       = Ok (st', false)
       /\ length (WorkloadSimulator.active_rides st') = 1%nat
       /\ taken = [WorkloadSimulator.mkRide "seattle" "r3";
                   WorkloadSimulator.mkRide "seattle" "r2"].
Proof.
  assert (Hne : ["seattle"%string] <> []) by discriminate.
  assert (Hds : Forall (WorkloadSimulator.ends_ride (1 # 2))
                  [Samples.end_ride_draws; Samples.end_ride_draws])
    by (repeat constructor).
  split; [exact Hne|]. split; [exact Hds|].
  destruct (active_ride_pool_shrinks Samples.sample_metadata _ _ _
              Samples.sample_state Hne Hds)
    as (st' & taken & Hrun & _ & Hlen & Hpool & _).
  exists st', taken. split; [exact Hrun|]. split; [exact Hlen|].
  assert (Hl : length (rev taken) = 2%nat).
  { apply (f_equal length) in Hpool. rewrite length_app, Hlen in Hpool.
    simpl in Hpool. lia. }
  destruct (WorkloadSimulator.active_rides st') as [|a [|b l]];
    try discriminate Hlen.
  destruct (rev taken) as [|x [|y [|z l]]] eqn:E; try discriminate Hl.
  injection Hpool as _ -> ->.
  apply (f_equal (@rev _)) in E. rewrite rev_involutive in E. exact E.
Defined.

Lemma vehicle_metadata_argument_witness :
  fst (WorkloadSimulator.select_drawn
         (WorkloadSimulator.randoms Samples.add_vehicle_draws) (1 # 2) 0%nat)
    = WorkloadSimulator.AddVehicle
  /\ (exists st',
        WorkloadSimulator.iteration Samples.sample_metadata ["seattle"%string]
          (1 # 2) Samples.add_vehicle_draws Samples.sample_state = Ok st'
        /\ WorkloadSimulator.calls st'
           = [WorkloadSimulator.add_vehicle "seattle" "u1" "scooter"
                "metadata for <type 'type'>" "available" "1 Main Street"])
  /\ (exists vs,
        BulkLoader.add_vehicles_helper Samples.sample_metadata "seattle"
          [BulkLoader.mkUser "u1" "seattle" "" "" ""]
          Samples.sample_vehicle_draws 0 2 = Ok vs
        /\ map BulkLoader.v_ext vs
           = ["metadata for bike"; "metadata for scooter"]%string).
Proof.
  destruct (vehicle_metadata_argument Samples.sample_metadata) as [Hsim Hload].
  assert (Hop : fst (WorkloadSimulator.select_drawn
                       (WorkloadSimulator.randoms Samples.add_vehicle_draws)
                       (1 # 2) 0%nat) = WorkloadSimulator.AddVehicle)
    by reflexivity.
  split; [exact Hop|]. split.
  - eexists. split; [reflexivity|].
    destruct (Hsim ["seattle"%string] (1 # 2) Samples.add_vehicle_draws
                Samples.sample_state _ Hop eq_refl) as (c & o & E).
    reflexivity.
  - eexists. split; [reflexivity|].
    pose proof (Hload "seattle"%string [BulkLoader.mkUser "u1" "seattle" "" "" ""]
                  Samples.sample_vehicle_draws 0 2 _ eq_refl) as F.
    reflexivity.
Defined.

(** ** Shutdown coordinator *)

Section ShutdownFacts.
Import ShutdownCoordinator.
Variable start : Q.
Variable obs : nat -> observation.

(** The clock is read after the wait began, and a pass of the loop that
    sleeps lasts a tenth of a second at least. *)
Hypothesis clock_after_start : (start <= now (obs 0%nat))%Q.
Hypothesis sleep_lasts :
  forall i : nat, (now (obs i) + (1 # 10) <= now (obs (S i)))%Q.

Lemma elapsed_grows (i : nat) :
  (inject_Z (Z.of_nat i) * (1 # 10) <= now (obs i) - start)%Q.
Proof.
  induction i as [|i IH].
  - change (inject_Z (Z.of_nat 0)) with 0%Q. lra.
  - pose proof (sleep_lasts i) as Hs.
    assert (E : (inject_Z (Z.of_nat (S i)) == inject_Z (Z.of_nat i) + 1)%Q).
    { rewrite Nat2Z.inj_succ. unfold Z.succ. rewrite inject_Z_plus. reflexivity. }
    rewrite E. lra.
Qed.

(** The loop ends within 152 tests: at its first test that finds no worker
    alive it leaves through [sys.exit(0)], or at its first test that finds
    workers alive and the grace period over, through [os._exit(1)]. *)
Lemma poll_ends (fuel i : nat) :
  (152 <= i + fuel)%nat ->
  waiting_before start obs i ->
  exists e n,
    poll fuel start obs i = Some e
    /\ waiting_before start obs n
    /\ ((e = sys_exit 0 /\ active_count (obs n) <= 1)
        \/ (e = os_exit 1 /\ 1 < active_count (obs n)
            /\ (grace_period < now (obs n) - start)%Q)).
Proof.
  revert i. induction fuel as [|fuel IH]; intros i Hfuel Hwait.
  - exfalso. destruct (Hwait 151%nat ltac:(lia)) as [_ Hle].
    pose proof (elapsed_grows 151) as Hge.
    change (inject_Z (Z.of_nat 151)) with (151 # 1)%Q in Hge.
    unfold grace_period in Hle. lra.
  - cbn [poll]. destruct (Z.ltb_spec 1 (active_count (obs i))) as [Halive|Hdone].
    + destruct (WorkloadSimulator.Qltb grace_period (now (obs i) - start)) eqn:Ht.
      * exists (os_exit 1), i. split; [reflexivity|]. split; [exact Hwait|].
        right. split; [reflexivity|]. split; [exact Halive|].
        by apply Qltb_lt.
      * apply IH; [lia|]. intros m Hm.
        destruct (decide (m = i)) as [->|Hne]; [|apply Hwait; lia].
        split; [exact Halive|]. apply Qnot_lt_le. intros Hlt.
        apply Qltb_lt in Hlt. congruence.
    + exists (sys_exit 0), i. split; [reflexivity|]. split; [exact Hwait|].
      left. split; [reflexivity|lia].
Qed.

End ShutdownFacts.

Section ShutdownClaims.
Import ShutdownCoordinator.

(** C4.  Whatever the flag was, the handler sets it (the handler is the
    only code that writes it, and it writes [True]); then the wait ends in
    one of two ways.  Either a test of the loop finds no worker thread
    alive, all earlier tests having found workers alive with the grace
    period not over, and the handler leaves through [sys.exit(0)]; or a
    test finds workers alive and the grace period over, all earlier tests
    having found it not over, and the handler ends the process at once
    through [os._exit(1)]. *)
Theorem shutdown_within_grace_period (TERMINATE_GRACEFULLY : bool) (start : Q)
    (obs : nat -> observation) :
  (start <= now (obs 0%nat))%Q ->
  (forall i : nat, (now (obs i) + (1 # 10) <= now (obs (S i)))%Q) ->
  exists e n,
    signal_handler 152 TERMINATE_GRACEFULLY start obs = (true, Some e)
    /\ waiting_before start obs n
    /\ ((e = sys_exit 0 /\ active_count (obs n) <= 1)
        \/ (e = os_exit 1 /\ 1 < active_count (obs n)
            /\ (grace_period < now (obs n) - start)%Q)).
Proof.
  intros Hstart Hsleep.
  destruct (poll_ends start obs Hstart Hsleep 152 0) as (e & n & Hp & Hw & Hend);
    [lia|intros m Hm; lia|].
  exists e, n. unfold signal_handler. rewrite Hp. auto.
Qed.

End ShutdownClaims.

Lemma shutdown_within_grace_period_witness :
  (0 <= ShutdownCoordinator.now (Samples.sample_observations 0))%Q
  /\ (forall i : nat,
        (ShutdownCoordinator.now (Samples.sample_observations i) + (1 # 10)
         <= ShutdownCoordinator.now (Samples.sample_observations (S i)))%Q)
  /\ exists e n,
       ShutdownCoordinator.signal_handler 152 false 0
         Samples.sample_observations = (true, Some e)
       /\ ShutdownCoordinator.waiting_before 0 Samples.sample_observations n
       /\ ((e = ShutdownCoordinator.sys_exit 0
            /\ ShutdownCoordinator.active_count (Samples.sample_observations n) <= 1)
           \/ (e = ShutdownCoordinator.os_exit 1
               /\ 1 < ShutdownCoordinator.active_count (Samples.sample_observations n)
               /\ (ShutdownCoordinator.grace_period
                   < ShutdownCoordinator.now (Samples.sample_observations n) - 0)%Q)).
Proof.
  assert (H0 : (0 <= ShutdownCoordinator.now (Samples.sample_observations 0))%Q)
    by (vm_compute; discriminate).
  assert (Hs : forall i : nat,
             (ShutdownCoordinator.now (Samples.sample_observations i) + (1 # 10)
              <= ShutdownCoordinator.now (Samples.sample_observations (S i)))%Q).
  { intros i. unfold Samples.sample_observations, ShutdownCoordinator.now,
      Qle, Qplus, inject_Z. cbn [Qnum Qden]. lia. }
  split; [exact H0|]. split; [exact Hs|].
  exact (shutdown_within_grace_period false 0 Samples.sample_observations H0 Hs).
Defined.

Example shutdown_graceful :
  ShutdownCoordinator.signal_handler 152 false 0 Samples.sample_observations
  = (true, Some (ShutdownCoordinator.sys_exit 0)).
Proof. reflexivity. Qed.

Example shutdown_forced :
  ShutdownCoordinator.signal_handler 152 false 0
    (fun i => ShutdownCoordinator.mkObservation 6 (inject_Z (Z.of_nat i)))
  = (true, Some (ShutdownCoordinator.os_exit 1)).
Proof. vm_compute. reflexivity. Qed.

(** ** The main program *)

Section MainFacts.
Import Main.
Variable get_users : string -> list WorkloadSimulator.entity.
Variable get_vehicles : string -> list WorkloadSimulator.entity.
Variable get_active_rides : string -> list WorkloadSimulator.ride.

(** The main program refuses a thread count below one before it builds the
    partition map or calls the loader or the generator. *)
Lemma main_rejects_thread_count (a : args) :
  conn_string_names_database a = true ->
  num_threads a <= 0 ->
  main get_users get_vehicles get_active_rides a
  = ([Log "Number of threads must be greater than 0."], Raise (SystemExit 1)).
Proof.
  intros Hc Ht. unfold main. rewrite Hc. cbn [negb].
  destruct (Z.leb_spec (num_threads a) 0); [reflexivity|lia].
Qed.

End MainFacts.

(** * Further properties *)

(** ** The chunks of the bulk loader *)

Section ChunkFacts.
Import BulkLoader LoaderBodies.

Lemma length_range (a b : Z) : length (range a b) = Z.to_nat (b - a).
Proof. unfold range. by rewrite length_map, length_seq. Qed.

Lemma range_empty (a b : Z) : b <= a -> range a b = [].
Proof. intros H. unfold range. replace (Z.to_nat (b - a)) with 0%nat by lia. reflexivity. Qed.

Lemma map_seq_shift (a : Z) (j m : nat) :
  map (fun k : nat => a + Z.of_nat k) (seq j m)
  = map (fun k : nat => (a + Z.of_nat j) + Z.of_nat k) (seq 0 m).
Proof.
  revert a j. induction m as [|m IH]; intros a j; [reflexivity|].
  cbn [seq map]. f_equal; [lia|].
  rewrite (IH a (S j)), (IH (a + Z.of_nat j) 1%nat). apply map_ext. intros k. lia.
Qed.

(** Two ranges that meet make one range. *)
Lemma range_app (a b c : Z) :
  a <= b -> b <= c -> range a b ++ range b c = range a c.
Proof.
  intros Hab Hbc. unfold range.
  replace (Z.to_nat (c - a)) with (Z.to_nat (b - a) + Z.to_nat (c - b))%nat by lia.
  rewrite seq_app, map_app. cbn [Nat.add].
  rewrite (map_seq_shift a (Z.to_nat (b - a))).
  rewrite (map_ext (fun k : nat => a + Z.of_nat (Z.to_nat (b - a)) + Z.of_nat k)
             (fun k : nat => b + Z.of_nat k)) by (intros k; lia).
  reflexivity.
Qed.

Lemma range_step_snoc (step : Z) (j : nat) :
  map (fun k : nat => Z.of_nat k * step) (seq 0 (S j))
  = map (fun k : nat => Z.of_nat k * step) (seq 0 j) ++ [Z.of_nat j * step].
Proof. by rewrite seq_S, map_app. Qed.

(** The number of chunks is the least number of steps that reaches the
    end. *)
Lemma range_step_count (stop step : Z) :
  0 < step ->
  let k := Z.to_nat ((stop + step - 1) / step) in
  (forall j : nat, (j < k)%nat -> Z.of_nat j * step < stop)
  /\ (stop <= Z.of_nat k * step \/ (k = 0%nat /\ stop <= 0)).
Proof.
  intros Hstep k.
  pose proof (Z.div_mod (stop + step - 1) step ltac:(lia)) as Hdm.
  pose proof (Z.mod_pos_bound (stop + step - 1) step Hstep) as Hr.
  split.
  - intros j Hj. subst k. nia.
  - destruct (Z.le_gt_cases stop 0) as [Hle|Hgt].
    + destruct (decide (k = 0%nat)); [by right|left]. subst k. nia.
    + left. subst k. nia.
Qed.

(** The chunks, taken in order, cover the indices from 0 to the count, each
    once. *)
Lemma chunks_tile (stop step : Z) :
  0 < step ->
  concat (map (fun chunk => range chunk (Z.min (chunk + step) stop))
            (range_step stop step))
  = range 0 stop.
Proof.
  intros Hstep. unfold range_step.
  destruct (range_step_count stop step Hstep) as [Hlt Hend].
  set (k := Z.to_nat ((stop + step - 1) / step)) in *.
  assert (H : forall j : nat, (j <= k)%nat ->
            concat (map (fun chunk => range chunk (Z.min (chunk + step) stop))
                      (map (fun i : nat => Z.of_nat i * step) (seq 0 j)))
            = range 0 (Z.min (Z.of_nat j * step) stop)).
  { induction j as [|j IH]; intros Hj.
    - cbn [seq map concat]. symmetry. apply range_empty. lia.
    - rewrite range_step_snoc, map_app, concat_app, IH by lia.
      cbn [map concat]. rewrite app_nil_r.
      pose proof (Hlt j ltac:(lia)) as Hjs.
      rewrite (Z.min_l (Z.of_nat j * step) stop) by lia.
      rewrite range_app by lia. f_equal. lia. }
  rewrite (H k) by lia. f_equal. destruct Hend as [Hend|[Hk0 Hend]]; lia.
Qed.

(** Every chunk works on at least one index and on at most [step]. *)
Lemma chunks_bounded (stop step : Z) (chunk : Z) :
  0 < step ->
  chunk ∈ range_step stop step ->
  (1 <= length (range chunk (Z.min (chunk + step) stop)) <= Z.to_nat step)%nat.
Proof.
  intros Hstep Hin. unfold range_step in Hin.
  apply list_elem_of_fmap in Hin as (j & -> & Hj).
  apply elem_of_seq in Hj.
  destruct (range_step_count stop step Hstep) as [Hlt _].
  specialize (Hlt j ltac:(lia)). rewrite length_range. lia.
Qed.

End ChunkFacts.

Section LoaderBodyFacts.
Import BulkLoader LoaderBodies.

Lemma users_of_txns (city : string) (draws : Z -> user_draw) (num_users : Z)
    (chunks : list Z) :
  concat (map (users_of_txn draws)
            (map (fun chunk => Txn Users city chunk (Z.min (chunk + 1000) num_users))
               chunks))
  = map (fun i => make_user city (draws i))
      (concat (map (fun chunk => range chunk (Z.min (chunk + 1000) num_users))
                 chunks)).
Proof.
  induction chunks as [|c l IH]; [reflexivity|].
  cbn [map concat users_of_txn]. rewrite IH. unfold add_users_helper.
  by rewrite map_app.
Qed.

(** X1.  [add_users] saves exactly the users of the indices from 0 to
    [num_users], each once and in order, whatever the number of chunks;
    every transaction saves at least one user and at most 1000; a count of
    zero or less saves nothing. *)
Theorem add_users_saves_each_index_once (city : string)
    (draws : Z -> user_draw) (num_users : Z) :
  users_written city draws num_users
  = map (fun i => make_user city (draws i)) (range 0 num_users)
  /\ length (users_written city draws num_users) = Z.to_nat num_users
  /\ Forall (fun e => (1 <= length (users_of_txn draws e) <= 1000)%nat)
       (add_users num_users city).
Proof.
  assert (E : users_written city draws num_users
              = map (fun i => make_user city (draws i)) (range 0 num_users)).
  { unfold users_written, add_users. cbn zeta.
    rewrite users_of_txns, chunks_tile by lia. reflexivity. }
  split; [exact E|]. split.
  - rewrite E, length_map, length_range. f_equal. lia.
  - unfold add_users. cbn zeta. rewrite Forall_map. apply Forall_forall.
    intros chunk Hin. cbn [users_of_txn]. unfold add_users_helper.
    rewrite length_map.
    exact (chunks_bounded num_users 1000 chunk ltac:(lia) Hin).
Qed.

Section WithMetadata.
Context {metadata : Type}.
Variable generate_vehicle_metadata : pyarg -> metadata.

Lemma choice_nil {A : Type} (pick : nat) : choice pick (@nil A) = Raise IndexError.
Proof. unfold choice. by destruct (pick mod length (@nil A))%nat. Qed.

(** With owners to choose from, the loop of a vehicle transaction builds
    one vehicle for each index, of the type drawn for it, in the city, and
    owned by one of the owners. *)
Lemma make_vehicles_ok (city : string) (owners : list User)
    (draws : Z -> vehicle_draw) (indices : list Z) :
  owners <> [] ->
  exists vs,
    make_vehicles generate_vehicle_metadata city owners draws indices = Ok vs
    /\ map v_type vs = map (fun i => vd_type (draws i)) indices
    /\ Forall (fun v => v_city v = city /\ v_owner_id v ∈ map u_id owners) vs.
Proof.
  intros Hne. induction indices as [|i l (vs & E & T & F)].
  - exists []. repeat split. constructor.
  - destruct (choice_ok (vd_owner (draws i)) owners Hne) as (owner & Ec & Hin).
    eexists. cbn [make_vehicles]. unfold make_vehicle at 1. rewrite Ec, E.
    cbn [bind]. split; [reflexivity|]. cbn [map v_type]. split; [by rewrite T|].
    constructor; [|exact F]. cbn [v_city v_owner_id]. split; [reflexivity|].
    apply list_elem_of_fmap. by exists owner.
Qed.

Lemma run_vehicle_txns_ok (city : string) (owners_at : Z -> list User)
    (draws : Z -> vehicle_draw) (num_vehicles : Z) (chunks : list Z) :
  (forall chunk, chunk ∈ chunks -> owners_at chunk <> []) ->
  exists vs,
    run_vehicle_txns generate_vehicle_metadata owners_at draws
      (map (fun chunk => Txn Vehicles city chunk (Z.min (chunk + 1000) num_vehicles))
         chunks) = Ok vs
    /\ map v_type vs
       = map (fun i => vd_type (draws i))
           (concat (map (fun chunk => range chunk (Z.min (chunk + 1000) num_vehicles))
                      chunks))
    /\ Forall (fun v => v_city v = city
                        /\ exists chunk, chunk ∈ chunks
                             /\ v_owner_id v ∈ map u_id (owners_at chunk)) vs.
Proof.
  induction chunks as [|c l IH]; intros Hown.
  - exists []. repeat split. constructor.
  - destruct IH as (ws & E & T & F); [intros ch Hch; apply Hown; by right|].
    destruct (make_vehicles_ok city (owners_at c) draws
                (range c (Z.min (c + 1000) num_vehicles)))
      as (vs & Ev & Tv & Fv); [apply Hown; by left|].
    exists (vs ++ ws). cbn [map run_vehicle_txns]. unfold add_vehicles_helper.
    rewrite Ev, E. cbn [bind]. split; [reflexivity|]. split.
    + cbn [concat]. by rewrite !map_app, Tv, T.
    + apply Forall_app. split.
      * eapply Forall_impl; [exact Fv|]. intros v [Hc Ho]. split; [exact Hc|].
        exists c. split; [by left|exact Ho].
      * eapply Forall_impl; [exact F|]. intros v (Hc & ch & Hch & Ho).
        split; [exact Hc|]. exists ch. split; [by right|exact Ho].
Qed.

Lemma choice_elem {A : Type} (pick : nat) (l : list A) (x : A) :
  choice pick l = Ok x -> x ∈ l.
Proof.
  unfold choice. destruct (nth_error l (pick mod length l)) as [y|] eqn:E;
    [|discriminate].
  intros [= <-]. apply list_elem_of_In. eapply nth_error_In, E.
Qed.

Lemma range_lookup (a b : Z) (k : nat) (x : Z) :
  range a b !! k = Some x -> x = a + Z.of_nat k.
Proof.
  unfold range. intros H. change map with (@fmap list _) in H.
  rewrite list_lookup_fmap in H.
  destruct (seq 0 (Z.to_nat (b - a)) !! k) as [j|] eqn:E; [|discriminate].
  apply lookup_seq in E as [-> _]. cbn in H. by injection H as <-.
Qed.

(** The loop of a vehicle transaction, pass by pass: the vehicle at a
    position is the one the loop body builds for the index at that
    position. *)
Lemma make_vehicles_shape (city : string) (owners : list User)
    (draws : Z -> vehicle_draw) (indices : list Z)
    (vs : list (Vehicle metadata)) :
  make_vehicles generate_vehicle_metadata city owners draws indices = Ok vs ->
  Forall2 (fun i v =>
             make_vehicle generate_vehicle_metadata city owners (draws i) = Ok v)
    indices vs.
Proof.
  revert vs. induction indices as [|i l IH]; intros vs.
  - intros [= <-]. constructor.
  - cbn [make_vehicles].
    destruct (make_vehicle generate_vehicle_metadata city owners (draws i))
      as [v|e] eqn:Ev; [|discriminate].
    cbn [bind].
    destruct (make_vehicles generate_vehicle_metadata city owners draws l)
      as [ws|e]; [|discriminate].
    cbn [bind]. intros [= <-]. constructor; [exact Ev|by apply IH].
Qed.

(** The transactions in order: every vehicle saved is built from the users
    that the query of its own transaction returned. *)
Lemma run_vehicle_txns_shape (city : string) (owners_at : Z -> list User)
    (draws : Z -> vehicle_draw) (num_vehicles : Z) (chunks : list Z)
    (vs : list (Vehicle metadata)) :
  run_vehicle_txns generate_vehicle_metadata owners_at draws
    (map (fun chunk => Txn Vehicles city chunk (Z.min (chunk + 1000) num_vehicles))
       chunks) = Ok vs ->
  Forall2 (fun (ci : Z * Z) v =>
             make_vehicle generate_vehicle_metadata city (owners_at (fst ci))
               (draws (snd ci)) = Ok v)
    (concat (map (fun chunk =>
                    map (pair chunk) (range chunk (Z.min (chunk + 1000) num_vehicles)))
               chunks))
    vs.
Proof.
  revert vs. induction chunks as [|c l IH]; intros vs.
  - intros [= <-]. constructor.
  - cbn [map run_vehicle_txns concat]. unfold add_vehicles_helper.
    destruct (make_vehicles generate_vehicle_metadata city (owners_at c) draws
                (range c (Z.min (c + 1000) num_vehicles))) as [saved|e] eqn:Es;
      [|discriminate].
    cbn [bind].
    destruct (run_vehicle_txns generate_vehicle_metadata owners_at draws _)
      as [later|e]; [|discriminate].
    cbn [bind]. intros [= <-]. apply Forall2_app; [|by apply IH].
    apply make_vehicles_shape in Es.
    apply Forall2_fmap_l. eapply Forall2_impl; [exact Es|]. by intros i v.
Qed.

Lemma tagged_indices (num step : Z) (chunks : list Z) :
  map snd
    (concat (map (fun chunk =>
                    map (pair chunk) (range chunk (Z.min (chunk + step) num)))
               chunks))
  = concat (map (fun chunk => range chunk (Z.min (chunk + step) num)) chunks).
Proof.
  induction chunks as [|c l IH]; [reflexivity|].
  cbn [map concat]. rewrite map_app, IH. f_equal.
  rewrite map_map. cbn [snd]. apply map_id.
Qed.

(** The index at a position of the tiling, and the chunk it falls in. *)
Lemma chunk_of_index (num step : Z) (k : nat) (chunk i : Z) :
  0 < step ->
  concat (map (fun chunk => map (pair chunk) (range chunk (Z.min (chunk + step) num)))
            (range_step num step)) !! k = Some (chunk, i) ->
  i = Z.of_nat k /\ chunk = Z.of_nat k / step * step
  /\ chunk ∈ range_step num step.
Proof.
  intros Hstep H.
  assert (Hi : i = Z.of_nat k).
  { pose proof (tagged_indices num step (range_step num step)) as E.
    rewrite (chunks_tile num step Hstep) in E.
    apply (f_equal (fmap snd)) in H. rewrite <- list_lookup_fmap in H.
    change (@fmap list _) with map in H. rewrite E in H.
    apply range_lookup in H. cbn in H. lia. }
  split; [exact Hi|].
  apply list_elem_of_lookup_2 in H.
  apply list_elem_of_In, in_concat in H as (l & Hl & Hin).
  apply list_elem_of_In in Hl, Hin.
  apply list_elem_of_fmap in Hl as (c & -> & Hc).
  apply list_elem_of_fmap in Hin as (i' & [= -> ->] & Hi').
  split; [|exact Hc].
  unfold range in Hi'. apply list_elem_of_fmap in Hi' as (j & Ej & Hj).
  apply elem_of_seq in Hj.
  unfold range_step in Hc. apply list_elem_of_fmap in Hc as (m & -> & _).
  assert (Hq : Z.of_nat k / step = Z.of_nat m).
  { symmetry. apply (Z.div_unique_pos _ _ _ (Z.of_nat j)); lia. }
  by rewrite Hq.
Qed.

(** X2.  When every vehicle transaction of a city finds users in it,
    [add_vehicles] raises nothing and saves exactly one vehicle for each
    index from 0 to [num_vehicles], in order, of the type drawn for that
    index, all in the city and each owned by a user that its own
    transaction has read: the vehicle at position [k] is the one the loop
    body builds from the draws of index [k] and from the users returned by
    the query of the transaction that index [k] falls in, the one that
    starts at the multiple of 1000 at or below [k]. *)
Theorem add_vehicles_saves_each_index_once (city : string)
    (owners_at : Z -> list User) (draws : Z -> vehicle_draw) (num_vehicles : Z) :
  (forall chunk, chunk ∈ range_step num_vehicles 1000 -> owners_at chunk <> []) ->
  exists vs,
    vehicles_written generate_vehicle_metadata city owners_at draws num_vehicles
      = Ok vs
    /\ map v_type vs = map (fun i => vd_type (draws i)) (range 0 num_vehicles)
    /\ length vs = Z.to_nat num_vehicles
    /\ Forall (fun v => v_city v = city
                        /\ exists chunk, chunk ∈ range_step num_vehicles 1000
                             /\ v_owner_id v ∈ map u_id (owners_at chunk)) vs
    /\ (forall (k : nat) v, vs !! k = Some v ->
          let chunk := Z.of_nat k / 1000 * 1000 in
          chunk ∈ range_step num_vehicles 1000
          /\ make_vehicle generate_vehicle_metadata city (owners_at chunk)
               (draws (Z.of_nat k)) = Ok v
          /\ v_id v = vd_uuid (draws (Z.of_nat k))
          /\ v_owner_id v ∈ map u_id (owners_at chunk)).
Proof.
  intros Hown. unfold vehicles_written, add_vehicles. cbn zeta.
  destruct (run_vehicle_txns_ok city owners_at draws num_vehicles
              (range_step num_vehicles 1000) Hown) as (vs & E & T & F).
  exists vs. rewrite chunks_tile in T by lia.
  split; [exact E|]. split; [exact T|]. split; [|split; [exact F|]].
  - apply (f_equal length) in T. rewrite !length_map, length_range in T.
    rewrite T. f_equal. lia.
  - intros k v Hk.
    apply run_vehicle_txns_shape in E.
    destruct (Forall2_lookup_r _ _ _ _ _ E Hk) as ([c i] & Hci & Hv).
    apply chunk_of_index in Hci as (-> & -> & Hc); [|lia].
    cbn [fst snd] in Hv. split; [exact Hc|]. split; [exact Hv|].
    unfold make_vehicle in Hv.
    destruct (choice (vd_owner (draws (Z.of_nat k)))
                (owners_at (Z.of_nat k / 1000 * 1000))) as [owner|e] eqn:Eo;
      [|discriminate].
    cbn [bind] in Hv. injection Hv as <-. cbn [v_id v_owner_id].
    split; [reflexivity|]. apply list_elem_of_fmap. exists owner.
    split; [reflexivity|]. eapply choice_elem, Eo.
Qed.

(** X3.  In a city without users the first vehicle transaction fails:
    [add_vehicles] raises [IndexError] (from [random.choice] on the empty
    list of owners) as soon as one vehicle is asked for, and saves
    nothing. *)
Theorem add_vehicles_without_users (city : string)
    (owners_at : Z -> list User) (draws : Z -> vehicle_draw) (num_vehicles : Z) :
  owners_at 0 = [] -> 1 <= num_vehicles ->
  vehicles_written generate_vehicle_metadata city owners_at draws num_vehicles
  = Raise IndexError.
Proof.
  intros Hown Hnum. unfold vehicles_written, add_vehicles, range_step. cbn zeta.
  assert (Hk : exists k, Z.to_nat ((num_vehicles + 1000 - 1) / 1000) = S k).
  { exists (Z.to_nat ((num_vehicles + 1000 - 1) / 1000) - 1)%nat.
    pose proof (Z.div_le_lower_bound (num_vehicles + 1000 - 1) 1000 1).
    lia. }
  destruct Hk as [k ->]. cbn [seq map run_vehicle_txns].
  change (Z.of_nat 0 * 1000) with 0. rewrite Hown.
  unfold add_vehicles_helper, range.
  assert (Hm : exists m, Z.to_nat (Z.min (0 + 1000) num_vehicles - 0) = S m).
  { exists (Z.to_nat (Z.min (0 + 1000) num_vehicles - 0) - 1)%nat. lia. }
  destruct Hm as [m ->]. cbn [seq map make_vehicles]. unfold make_vehicle.
  by rewrite choice_nil.
Qed.

End WithMetadata.
End LoaderBodyFacts.

Section RideFacts.
Import BulkLoader LoaderBodies.
Context {metadata revenue : Type}.

(** The loop of a ride transaction, pass by pass: the ride at a position is
    the one the loop body builds for the index at that position. *)
Lemma make_rides_shape (city : string) (users : list User)
    (vehicles : list (Vehicle metadata)) (draws : Z -> ride_draw revenue)
    (indices : list Z) (rides : list (Ride revenue)) :
  make_rides city users vehicles draws indices = Ok rides ->
  Forall2 (fun i r => make_ride city users vehicles (draws i) = Ok r) indices rides.
Proof.
  revert rides. induction indices as [|i l IH]; intros rides.
  - intros [= <-]. constructor.
  - cbn [make_rides].
    destruct (make_ride city users vehicles (draws i)) as [r|e] eqn:Er;
      [|discriminate].
    cbn [bind].
    destruct (make_rides city users vehicles draws l) as [rs|e]; [|discriminate].
    cbn [bind]. intros [= <-]. constructor; [exact Er|by apply IH].
Qed.

(** X4.  With users and vehicles to choose from, and the numbers of days
    and minutes drawn as [random.randint] draws them, a ride transaction
    raises nothing and saves one ride for each index of its chunk (the
    chunk ends after 800 indices or at [num_rides], whatever [n] is), in
    order: the ride at position [k] is the one the loop body builds from
    the clock reading and the draws made for index [chunk + k].  That ride
    is in the city, with its vehicle in the same city, a rider among the
    users read and a vehicle among the vehicles read; it starts the number
    of days drawn for it before the clock reading made for it, so at most
    30 days before that reading and not after it; and it ends the number of
    minutes drawn for it after its start, so at or after its start and at
    most 60 minutes later. *)
Theorem add_rides_helper_saves_valid_rides (num_rides : Z) (city : string)
    (users : list User) (vehicles : list (Vehicle metadata))
    (draws : Z -> ride_draw revenue) (chunk n : Z) :
  users <> [] -> vehicles <> [] ->
  (forall i, randint_in_range (draws i)) ->
  exists rides,
    add_rides_helper num_rides city users vehicles draws chunk n = Ok rides
    /\ length rides = Z.to_nat (Z.min (chunk + 800) num_rides - chunk)
    /\ (forall (k : nat) r, rides !! k = Some r ->
          let d := draws (chunk + Z.of_nat k) in
          make_ride city users vehicles d = Ok r
          /\ r_id r = rd_uuid d
          /\ r_city r = city /\ r_vehicle_city r = city
          /\ r_rider_id r ∈ map u_id users
          /\ r_vehicle_id r ∈ map v_id vehicles
          /\ r_start_time r = rd_now d - timedelta_days (rd_days d)
          /\ r_end_time r = r_start_time r + timedelta_minutes (rd_minutes d)
          /\ rd_now d - timedelta_days 30 <= r_start_time r <= rd_now d
          /\ r_start_time r <= r_end_time r
             <= r_start_time r + timedelta_minutes 60).
Proof.
  intros Hu Hv Hr. unfold add_rides_helper. cbn zeta.
  rewrite <- length_range.
  assert (Hok : forall indices, exists rides,
            make_rides city users vehicles draws indices = Ok rides
            /\ length rides = length indices).
  { induction indices as [|i l (rs & E & L)]; [by exists []|].
    destruct (choice_ok (rd_rider (draws i)) users Hu) as (rider & Er & _).
    destruct (choice_ok (rd_vehicle (draws i)) vehicles Hv) as (veh & Ev & _).
    eexists. cbn [make_rides]. unfold make_ride at 1. rewrite Er, Ev, E.
    cbn [bind]. split; [reflexivity|]. cbn [length]. by rewrite L. }
  destruct (Hok (range chunk (Z.min (chunk + 800) num_rides))) as (rides & E & L).
  exists rides. split; [exact E|]. split; [exact L|].
  intros k r Hk. set (d := draws (chunk + Z.of_nat k)).
  apply make_rides_shape in E.
  destruct (Forall2_lookup_r _ _ _ _ _ E Hk) as (i & Hi & Hride).
  apply range_lookup in Hi. subst i. fold d in Hride.
  split; [exact Hride|].
  unfold make_ride in Hride.
  destruct (choice (rd_rider d) users) as [rider|e] eqn:Er; [|discriminate].
  destruct (choice (rd_vehicle d) vehicles) as [veh|e] eqn:Ev; [|discriminate].
  cbn [bind] in Hride. injection Hride as <-.
  cbn [r_id r_city r_vehicle_city r_rider_id r_vehicle_id r_start_time r_end_time].
  destruct (Hr (chunk + Z.of_nat k)) as [Hd Hm]. fold d in Hd, Hm.
  unfold timedelta_minutes, timedelta_days.
  split; [reflexivity|]. split; [reflexivity|]. split; [reflexivity|].
  split; [apply list_elem_of_fmap; exists rider; split;
            [reflexivity|eapply choice_elem, Er]|].
  split; [apply list_elem_of_fmap; exists veh; split;
            [reflexivity|eapply choice_elem, Ev]|].
  split; [reflexivity|]. split; [reflexivity|]. lia.
Qed.

(** In a city without users a ride transaction with at least one index
    fails with [IndexError], and so does one in a city without vehicles. *)
Lemma make_ride_without_users (city : string)
    (vehicles : list (Vehicle metadata)) (d : ride_draw revenue) :
  make_ride city [] vehicles d = Raise IndexError.
Proof. unfold make_ride. by rewrite choice_nil. Qed.

End RideFacts.

Section LoaderRunFacts.
Import BulkLoader LoaderBodies.
Variable flag : nat -> bool.
Variables nu nv nr : Z.

Lemma load_cities_prefix (cities : list string) (clock : nat) :
  load_cities flag clock nu nv nr cities `prefix_of` full_run nu nv nr cities.
Proof.
  revert clock. induction cities as [|c rest IH]; intros clock; [done|].
  cbn [load_cities]. unfold full_run. cbn [map concat]. fold (full_run nu nv nr rest).
  destruct (flag clock).
  - apply prefix_cons, prefix_nil.
  - apply prefix_cons, prefix_app, IH.
Qed.

Lemma load_cities_never_stopped (cities : list string) (clock : nat) :
  (forall t, flag t = false) ->
  load_cities flag clock nu nv nr cities = full_run nu nv nr cities.
Proof.
  intros Hf. revert clock. induction cities as [|c rest IH]; intros clock;
    [reflexivity|].
  cbn [load_cities]. rewrite Hf, IH. reflexivity.
Qed.

End LoaderRunFacts.

Section LoaderRunExtras.
Import BulkLoader LoaderBodies.

Lemma checked_app (l1 l2 : list event) :
  checked (l1 ++ l2) = checked l1 ++ checked l2.
Proof. unfold checked. apply omap_app. Qed.

(** X5.  Whatever the stop flag does and whatever the counts are, what
    [load_movr_data] does is an initial part of its uninterrupted run:
    the cities in list order and, for each, the reading of the flag, then
    its user transactions, then its vehicle transactions, then its ride
    transactions.  It never skips a city, never reorders, never runs a
    transaction twice. *)
Theorem load_movr_data_is_initial_part (flag : nat -> bool)
    (num_users num_vehicles num_rides : Z) (cities : list string) :
  fst (load_movr_data flag num_users num_vehicles num_rides cities)
    `prefix_of` full_run num_users num_vehicles num_rides cities.
Proof.
  unfold load_movr_data.
  destruct (_ || _); cbn [fst]; [apply prefix_nil|apply load_cities_prefix].
Qed.

(** X6.  When the stop flag is never set and the counts are valid,
    [load_movr_data] loads every city: it performs the whole uninterrupted
    run and raises nothing, and the indices its user transactions work on
    are, for every city in turn, all the indices from 0 to [num_users]. *)
Theorem load_movr_data_loads_every_city (flag : nat -> bool)
    (num_users num_vehicles num_rides : Z) (cities : list string) :
  (forall t, flag t = false) ->
  0 < num_users -> 0 < num_vehicles -> 0 < num_rides ->
  load_movr_data flag num_users num_vehicles num_rides cities
  = (full_run num_users num_vehicles num_rides cities, Ok tt)
  /\ checked (full_run num_users num_vehicles num_rides cities) = cities
  /\ concat (map txn_range (full_run num_users num_vehicles num_rides cities))
     = concat (map (fun _ => range 0 num_users ++ range 0 num_vehicles
                              ++ range 0 num_rides) cities).
Proof.
  intros Hf Hu Hv Hr. split; [|split].
  - unfold load_movr_data.
    destruct (Z.leb_spec num_users 0); [lia|].
    destruct (Z.leb_spec num_rides 0); [lia|].
    destruct (Z.leb_spec num_vehicles 0); [lia|].
    cbn [orb]. by rewrite load_cities_never_stopped.
  - unfold full_run. induction cities as [|c rest IH]; [reflexivity|].
    cbn [map concat].
    rewrite checked_app, IH.
    change (checked (ReadFlag c :: ?l)) with (c :: checked l).
    by rewrite checked_load_city.
  - unfold full_run. induction cities as [|c rest IH]; [reflexivity|].
    cbn [map concat txn_range]. rewrite List.map_app, concat_app, IH. cbn [app].
    f_equal. unfold load_city, add_users, add_vehicles, add_rides. cbn zeta.
    cbn [map txn_range concat app].
    rewrite !map_app, !concat_app, !map_map. cbn [txn_range].
    by rewrite !chunks_tile by lia.
Qed.

End LoaderRunExtras.

(** ** The groups of the load distributor *)

Section DistributorFacts.
Import LoadDistributor.

(** With a thread count of at least one and cities to load, the
    distributor raises nothing; the threads it starts are those of its
    loop, run [min(requested, number of cities)] times on groups of the
    ceiling size, with the ceilings of the counts per city. *)
Lemma distribute_started (all_cities : list string) (nu nr nv nt : Z) :
  all_cities <> [] -> 1 <= nt ->
  exists (size : nat) (pu pr pv : Z),
    let len := Z.of_nat (length all_cities) in
    let started :=
      start_threads (Z.to_nat (Z.min nt len)) (Z.of_nat size) pu pv pr all_cities in
    distribute all_cities nu nr nv nt
    = ((if Z.min nt len <? nt
        then [Log "Only using %d of %d requested threads, since we only create at most one thread per city"]
        else []) ++ map StartThread started, Ok started)
    /\ ceil_div len (Z.min nt len) = Ok (Z.of_nat size)
    /\ ceil_div nu len = Ok pu /\ ceil_div nr len = Ok pr
    /\ ceil_div nv len = Ok pv
    /\ (1 <= size)%nat
    /\ (length all_cities <= Z.to_nat (Z.min nt len) * size)%nat
    /\ Z.of_nat (size - 1) * Z.min nt len < len.
Proof.
  intros Hne Hnt.
  assert (Hlen : 1 <= Z.of_nat (length all_cities))
    by (destruct all_cities; [congruence|simpl; lia]).
  cbn zeta. set (len := Z.of_nat (length all_cities)) in *.
  destruct (ceil_div_pos len (Z.min nt len)) as (c & Ec & Hc1 & Hc2 & Hc3);
    [lia..|].
  destruct (ceil_div_nonzero nu len) as [pu Eu]; [lia|].
  destruct (ceil_div_nonzero nr len) as [pr Er]; [lia|].
  destruct (ceil_div_nonzero nv len) as [pv Ev]; [lia|].
  exists (Z.to_nat c), pu, pr, pv. rewrite Z2Nat.id by lia.
  unfold distribute. fold len. rewrite Ec, Eu, Er, Ev. cbn [bind].
  repeat split; try reflexivity; try lia; unfold len in *; nia.
Qed.

Variables nu nv nr : Z.



End DistributorFacts.

Section DistributorExtras.
Import LoadDistributor.

Lemma ceil_div_unique (a b c : Z) :
  1 <= b -> ceil_div a b = Ok c -> a <= c * b /\ (c - 1) * b < a.
Proof.
  intros Hb. unfold ceil_div. destruct (Z.eqb_spec b 0); [lia|].
  intros [= <-].
  pose proof (Z.div_mod (- a) b ltac:(lia)) as Hdm.
  pose proof (Z.mod_pos_bound (- a) b ltac:(lia)) as Hr.
  nia.
Qed.

Lemma start_threads_args (k : nat) (c pu pv pr : Z) (l : list string) :
  Forall (fun a => t_num_users a = pu /\ t_num_vehicles a = pv
                   /\ t_num_rides a = pr)
    (start_threads k c pu pv pr l).
Proof.
  revert l. induction k as [|k IH]; intros l; [constructor|].
  cbn [start_threads]. destruct (0 <? length l)%nat; [|apply IH].
  constructor; [by repeat split|apply IH].
Qed.




(** X10.  With valid counts below 2^53 (the integers up to which
    [float(a) / b] rounds to the exact ceiling; beyond them the float
    quotient may fall short, as for 2^53 + 1 users and one city) and fewer
    than 2^53 cities, every thread the distributor starts is given counts
    per city of at least one, which are the ceilings of the counts asked
    for divided by the number of cities; so the validation of
    [load_movr_data] in the thread passes, whatever the stop flag does. *)
Theorem distribute_gives_valid_counts (all_cities : list string)
    (num_users num_rides num_vehicles num_threads : Z) (flag : nat -> bool) :
  all_cities <> [] -> 1 <= num_threads ->
  0 < num_users < 2 ^ 53 -> 0 < num_rides < 2 ^ 53 ->
  0 < num_vehicles < 2 ^ 53 ->
  Z.of_nat (length all_cities) < 2 ^ 53 ->
  exists started,
    snd (distribute all_cities num_users num_rides num_vehicles num_threads)
      = Ok started
    /\ Forall (fun a =>
                 let len := Z.of_nat (length all_cities) in
                 (t_num_users a - 1) * len < num_users <= t_num_users a * len
                 /\ (t_num_vehicles a - 1) * len < num_vehicles
                    <= t_num_vehicles a * len
                 /\ (t_num_rides a - 1) * len < num_rides <= t_num_rides a * len
                 /\ snd (BulkLoader.load_movr_data flag (t_num_users a)
                           (t_num_vehicles a) (t_num_rides a) (t_cities a))
                    = Ok tt) started.
Proof.
  intros Hne Hnt [Hu _] [Hr _] [Hv _] _.
  assert (Hlen : 1 <= Z.of_nat (length all_cities))
    by (destruct all_cities; [congruence|simpl; lia]).
  destruct (distribute_started all_cities num_users num_rides num_vehicles
              num_threads Hne Hnt)
    as (size & pu & pr & pv & Ed & _ & Eu & Er & Ev & _).
  cbn zeta in Ed. rewrite Ed. cbn [snd]. eexists. split; [reflexivity|].
  apply ceil_div_unique in Eu, Er, Ev; try lia.
  eapply Forall_impl; [apply start_threads_args|].
  intros a (-> & -> & ->). cbn zeta. repeat split; try lia.
  unfold BulkLoader.load_movr_data.
  destruct (Z.leb_spec pu 0); [nia|].
  destruct (Z.leb_spec pr 0); [nia|].
  destruct (Z.leb_spec pv 0); [nia|]. reflexivity.
Qed.


End DistributorExtras.

(** ** The shared state of the simulator *)

Section SimulatorStateFacts.
Import BulkLoader WorkloadSimulator SimulatorState.
Context {metadata : Type}.
Variable generate_vehicle_metadata : pyarg -> metadata.

Lemma count_if_snoc {A : Type} (f : A -> bool) (l : list A) (x : A) :
  count_if f (l ++ [x]) = (count_if f l + if f x then 1 else 0)%nat.
Proof.
  rewrite count_if_app, count_if_cons. change (count_if f []) with 0%nat. lia.
Qed.

Lemma grown_refl (st : state metadata) : grown st st.
Proof.
  split; [done|]. split; [|done]. intros city reg H. exists reg. done.
Qed.

Lemma grown_trans (st1 st2 st3 : state metadata) :
  grown st1 st2 -> grown st2 st3 -> grown st1 st3.
Proof.
  intros (N1 & S1 & C1) (N2 & S2 & C2). split; [|split].
  - intros city H. by apply N2, N1.
  - intros city reg H. destruct (S1 city reg H) as (reg2 & H2 & Pu & Pv).
    destruct (S2 city reg2 H2) as (reg3 & H3 & Pu' & Pv').
    exists reg3. split; [exact H3|]. split; by etrans.
  - by etrans.
Qed.

(** Replacing the registry of a city by a longer one. *)
Lemma grown_insert (st : state metadata) (city : string) (reg reg' : registry)
    (pool : list ride) (c : movr_call metadata) :
  movr_objects st !! city = Some reg ->
  users reg `prefix_of` users reg' ->
  vehicles reg `prefix_of` vehicles reg' ->
  grown st (mkState (<[city := reg']> (movr_objects st)) pool (calls st ++ [c])).
Proof.
  intros H Pu Pv. split; [|split]; cbn [movr_objects calls].
  - intros c' Hc'. rewrite lookup_insert_ne; [exact Hc'|congruence].
  - intros c' r Hc'. destruct (decide (city = c')) as [<-|Hne].
    + rewrite lookup_insert_eq. exists reg'. rewrite H in Hc'.
      injection Hc' as <-. done.
    + rewrite lookup_insert_ne by exact Hne. exists r. done.
  - by apply prefix_app_r.
Qed.

Lemma grown_same_objects (st : state metadata) (pool : list ride)
    (cs : list (movr_call metadata)) :
  grown st (mkState (movr_objects st) pool (calls st ++ cs)).
Proof.
  split; [done|]. split; [|by apply prefix_app_r].
  intros city reg H. exists reg. done.
Qed.

(** What one operation does to the shared state when it raises nothing. *)
Lemma perform_step (op : operation) (city : string) (d : draws)
    (st st' : state metadata) :
  perform generate_vehicle_metadata op city d st = Ok st' ->
  grown st st'
  /\ balance st' = balance st
  /\ (length (calls st') <= length (calls st) + 1)%nat.
Proof.
  destruct op; cbn [perform].
  - intros [= <-]. split; [apply grown_same_objects|].
    unfold balance. cbn [active_rides calls].
    rewrite !count_if_snoc, length_app. cbn. lia.
  - destruct (registry_of st city) as [reg|] eqn:E; [|discriminate].
    unfold registry_of in E.
    destruct (movr_objects st !! city) as [r|] eqn:L; [|discriminate].
    injection E as ->. cbn [bind]. intros [= <-]. split.
    + apply (grown_insert st city reg); [exact L|by apply prefix_app_r|done].
    + unfold balance. cbn [active_rides calls].
      rewrite !count_if_snoc, length_app. cbn. lia.
  - destruct (registry_of st city) as [reg|] eqn:E; [|discriminate].
    unfold registry_of in E.
    destruct (movr_objects st !! city) as [r|] eqn:L; [|discriminate].
    injection E as ->. cbn [bind].
    destruct (choice (owner_pick d) (users reg)); [|discriminate]. cbn [bind].
    intros [= <-]. split.
    + apply (grown_insert st city reg); [exact L|done|by apply prefix_app_r].
    + unfold balance. cbn [active_rides calls].
      rewrite !count_if_snoc, length_app. cbn. lia.
  - destruct (registry_of st city) as [reg|]; [|discriminate]. cbn [bind].
    destruct (choice (rider_pick d) (users reg)); [|discriminate]. cbn [bind].
    destruct (choice (vehicle_pick d) (vehicles reg)); [|discriminate].
    cbn [bind]. intros [= <-]. split; [apply grown_same_objects|].
    unfold balance. cbn [active_rides calls].
    rewrite !count_if_snoc, !length_app. cbn. lia.
  - destruct (active_rides st) as [|r pool _] eqn:E using rev_ind.
    + cbn. intros [= <-]. split; [apply grown_refl|]. split; [reflexivity|lia].
    + rewrite pop_snoc. intros [= <-]. split; [apply grown_same_objects|].
      unfold balance. cbn [active_rides calls]. rewrite E.
      rewrite !count_if_snoc, !length_app. cbn. lia.
Qed.

(** In a seeded state no operation raises. *)
Lemma perform_seeded (cities : list string) (op : operation) (city : string)
    (d : draws) (st : state metadata) :
  seeded cities st -> city ∈ cities ->
  exists st', perform generate_vehicle_metadata op city d st = Ok st'.
Proof.
  intros [_ Hs] Hin. destruct (Hs city Hin) as (reg & L & Hu & Hv).
  destruct (choice_ok (owner_pick d) (users reg) Hu) as (o & Eo & _).
  destruct (choice_ok (rider_pick d) (users reg) Hu) as (r & Er & _).
  destruct (choice_ok (vehicle_pick d) (vehicles reg) Hv) as (v & Ev & _).
  destruct op; cbn [perform]; unfold registry_of; rewrite ?L; cbn [bind];
    rewrite ?Eo, ?Er, ?Ev; cbn [bind]; eauto.
  destruct (pop (active_rides st)) as [[? ?]|]; eauto.
Qed.

Lemma grown_seeded (cities : list string) (st st' : state metadata) :
  seeded cities st -> grown st st' -> seeded cities st'.
Proof.
  intros [Hne Hs] (_ & Hg & _). split; [exact Hne|].
  intros city Hin. destruct (Hs city Hin) as (reg & L & Hu & Hv).
  destruct (Hg city reg L) as (reg' & L' & [ku Pu] & [kv Pv]).
  exists reg'. split; [exact L'|]. rewrite Pu, Pv.
  split; intros H; apply app_eq_nil in H as [? _]; contradiction.
Qed.

Lemma iteration_step (cities : list string) (rp : Q) (d : draws)
    (st st' : state metadata) :
  iteration generate_vehicle_metadata cities rp d st = Ok st' ->
  grown st st'
  /\ balance st' = balance st
  /\ (length (calls st') <= length (calls st) + 1)%nat.
Proof.
  unfold iteration.
  destruct (choice (city_pick d) cities) as [city|]; [|discriminate].
  cbn [bind]. apply perform_step.
Qed.

Lemma iteration_seeded (cities : list string) (rp : Q) (d : draws)
    (st : state metadata) :
  seeded cities st ->
  exists st', iteration generate_vehicle_metadata cities rp d st = Ok st'.
Proof.
  intros Hs. unfold iteration.
  destruct (choice_ok (city_pick d) cities (proj1 Hs)) as (city & E & Hin).
  rewrite E. cbn [bind]. by eapply perform_seeded.
Qed.

End SimulatorStateFacts.

Section SimulatorExtras.
Import BulkLoader WorkloadSimulator SimulatorState.
Context {metadata : Type}.
Variable generate_vehicle_metadata : pyarg -> metadata.

(** X12.  A simulator thread that runs alone, no other thread touching
    the registries or the pool while it loops: in a state where every city
    has a registry with at least one user and one vehicle (what the
    warm-up leaves), it never raises of its own, whatever is drawn in any
    number of passes of its loop: no [KeyError] from a registry, no
    [IndexError] from [random.choice] or from the pool; and the state it
    leaves is again such a state.  (Threads that share the pool are not
    covered: there the test of the pool's length and the [pop] that follows
    it are two steps, and another thread may empty the pool in between.) *)
Theorem simulate_movr_load_never_raises (cities : list string)
    (read_percentage : Q) (ds : list draws) (st : state metadata) :
  seeded cities st ->
  exists st' returned,
    simulate_movr_load generate_vehicle_metadata cities read_percentage ds st
      = Ok (st', returned)
    /\ seeded cities st'.
Proof.
  revert st. induction ds as [|d ds IH]; intros st Hs; cbn [simulate_movr_load].
  - by exists st, false.
  - destruct (stop d); [by exists st, true|].
    destruct (iteration_seeded generate_vehicle_metadata cities read_percentage
                d st Hs) as [st1 E].
    rewrite E. cbn [bind]. apply IH.
    eapply grown_seeded; [exact Hs|].
    by eapply iteration_step.
Qed.

(** X13.  Along any run of a simulator thread that raises nothing the
    registries are only added to: no city's registry appears or
    disappears, the users and the vehicles a registry held are still
    there, at the same positions, and the storage calls already made are
    not undone. *)
Theorem simulate_movr_load_appends_only (cities : list string)
    (read_percentage : Q) (ds : list draws) (st st' : state metadata)
    (returned : bool) :
  simulate_movr_load generate_vehicle_metadata cities read_percentage ds st
    = Ok (st', returned) ->
  grown st st'.
Proof.
  revert st. induction ds as [|d ds IH]; intros st; cbn [simulate_movr_load].
  - intros [= <- _]. apply grown_refl.
  - destruct (stop d); [intros [= <- _]; apply grown_refl|].
    destruct (iteration _ cities read_percentage d st) as [st1|] eqn:E;
      [|discriminate].
    cbn [bind]. intros H. eapply grown_trans; [|by apply IH].
    by eapply iteration_step.
Qed.

(** X14.  Along any run that raises nothing, the rides in the pool and
    the rides ended in storage, less the rides started in storage, stay
    the same number: a ride leaves the pool only by being ended and enters
    it only by being started.  A pass makes at most one storage call. *)
Theorem simulate_movr_load_keeps_balance (cities : list string)
    (read_percentage : Q) (ds : list draws) (st st' : state metadata)
    (returned : bool) :
  simulate_movr_load generate_vehicle_metadata cities read_percentage ds st
    = Ok (st', returned) ->
  balance st' = balance st
  /\ (length (calls st') <= length (calls st) + length ds)%nat.
Proof.
  revert st. induction ds as [|d ds IH]; intros st; cbn [simulate_movr_load].
  - intros [= <- _]. cbn [length]. split; [reflexivity|lia].
  - destruct (stop d); [intros [= <- _]; cbn [length]; split; [reflexivity|lia]|].
    destruct (iteration _ cities read_percentage d st) as [st1|] eqn:E;
      [|discriminate].
    cbn [bind]. intros H. destruct (IH _ H) as [B L].
    destruct (iteration_step _ _ _ _ _ _ E) as (_ & B1 & L1).
    cbn [length]. split; [congruence|lia].
Qed.

(** X15.  With a read fraction of one, and [random.random()] returning
    values from 0 (included) to 1 (excluded), every pass is a read and
    nothing else: the registries and the pool are left as they were, and
    the storage calls made are, pass for pass, one read of at most 25
    vehicles of the city chosen in that pass.  The passes made are the
    draws up to the first one that finds the stop flag set; the function
    has returned when there is such a draw and is still looping
    otherwise. *)
Theorem simulate_movr_load_reads_only (cities : list string)
    (ds : list draws) (st : state metadata) :
  cities <> [] ->
  Forall (fun d => unit_interval (randoms d 0%nat)) ds ->
  exists reads returned,
    simulate_movr_load generate_vehicle_metadata cities 1 ds st
      = Ok (mkState (movr_objects st) (active_rides st) (calls st ++ reads),
            returned)
    /\ Forall (is_read cities) reads
    /\ exists passes rest,
         ds = passes ++ rest
         /\ Forall (fun d => stop d = false) passes
         /\ match rest with
            | [] => returned = false
            | d :: _ => stop d = true /\ returned = true
            end
         /\ Forall2 (fun d c =>
                       exists city, choice (city_pick d) cities = Ok city
                                    /\ c = get_vehicles city 25)
              passes reads.
Proof.
  intros Hne Hds. revert st.
  induction Hds as [|d ds [_ Hd] _ IH]; intros st; cbn [simulate_movr_load].
  - exists [], false. rewrite app_nil_r.
    split; [by destruct st|]. split; [constructor|].
    exists [], []. repeat split; constructor.
  - destruct (stop d) eqn:Es.
    { exists [], true. rewrite app_nil_r.
      split; [by destruct st|]. split; [constructor|].
      exists [], (d :: ds). repeat split; [constructor|exact Es|constructor]. }
    unfold iteration.
    destruct (choice_ok (city_pick d) cities Hne) as (city & E & Hin).
    rewrite E, select_drawn_tests. cbn [bind].
    apply Qltb_lt in Hd. rewrite Hd. cbn [fst perform bind].
    destruct (IH (mkState (movr_objects st) (active_rides st)
                    (calls st ++ [get_vehicles city 25])))
      as (reads & returned & Hrun & Hreads & passes & rest & -> & Hp & Hr & F).
    rewrite Hrun. cbn [movr_objects active_rides calls].
    exists (get_vehicles city 25 :: reads), returned.
    rewrite <- app_assoc. split; [reflexivity|].
    split; [constructor; [by exists city|exact Hreads]|].
    exists (d :: passes), rest. split; [reflexivity|].
    split; [by constructor|]. split; [exact Hr|].
    constructor; [by exists city|exact F].
Qed.

(** X16.  With a read fraction of zero, and [random.random()] returning
    values from 0 to 1, no pass is a read: along any run that raises
    nothing, no read of vehicles is added to the storage calls. *)
Theorem simulate_movr_load_never_reads (cities : list string)
    (ds : list draws) (st st' : state metadata) (returned : bool) :
  Forall (fun d => unit_interval (randoms d 0%nat)) ds ->
  simulate_movr_load generate_vehicle_metadata cities 0 ds st
    = Ok (st', returned) ->
  exists writes,
    calls st' = calls st ++ writes
    /\ Forall (fun c => forall city limit, c <> get_vehicles city limit) writes.
Proof.
  intros Hds. revert st.
  induction Hds as [|d ds [Hd _] _ IH]; intros st; cbn [simulate_movr_load].
  - intros [= <- _]. exists []. by rewrite app_nil_r.
  - destruct (stop d); [intros [= <- _]; exists []; by rewrite app_nil_r|].
    destruct (iteration _ cities 0 d st) as [st1|] eqn:E; [|discriminate].
    cbn [bind]. intros H. destruct (IH _ H) as (ws & Hc & Hw).
    assert (H1 : exists w1, calls st1 = calls st ++ w1
                   /\ Forall (fun c => forall city limit,
                                c <> get_vehicles city limit) w1).
    { unfold iteration in E.
      destruct (choice (city_pick d) cities) as [city|]; [|discriminate].
      rewrite select_drawn_tests in E. cbn [bind] in E.
      assert (Hn : Qltb (randoms d 0%nat) 0 = false).
      { destruct (Qltb (randoms d 0%nat) 0) eqn:Q; [|reflexivity].
        apply Qltb_lt in Q. exfalso. by apply (Qlt_not_le _ _ Q). }
      rewrite Hn in E.
      destruct (Qltb (randoms d 1%nat) (1 # 10));
        [|destruct (Qltb (randoms d 2%nat) (1 # 10));
          [|destruct (Qltb (randoms d 3%nat) (1 # 2))]];
        cbn [fst perform] in E.
      - destruct (registry_of st city); [|discriminate]. cbn [bind] in E.
        injection E as <-. eexists. split; [reflexivity|].
        by repeat constructor.
      - destruct (registry_of st city) as [reg|]; [|discriminate].
        cbn [bind] in E.
        destruct (choice (owner_pick d) (users reg)); [|discriminate].
        cbn [bind] in E. injection E as <-. eexists. split; [reflexivity|].
        by repeat constructor.
      - destruct (registry_of st city) as [reg|]; [|discriminate].
        cbn [bind] in E.
        destruct (choice (rider_pick d) (users reg)); [|discriminate].
        cbn [bind] in E.
        destruct (choice (vehicle_pick d) (vehicles reg)); [|discriminate].
        cbn [bind] in E. injection E as <-. eexists. split; [reflexivity|].
        by repeat constructor.
      - destruct (pop (active_rides st)) as [[r rest]|].
        + injection E as <-. eexists. split; [reflexivity|].
          by repeat constructor.
        + injection E as <-. exists []. by rewrite app_nil_r. }
    destruct H1 as (w1 & Hc1 & Hw1). exists (w1 ++ ws).
    rewrite Hc, Hc1, <- app_assoc. split; [reflexivity|by apply Forall_app].
Qed.

(** X17.  The stop flag is read at the top of every pass: at the first
    pass that finds it set the function returns, leaving the state as the
    passes before it made it; nothing that would have been drawn in later
    passes matters. *)
Theorem simulate_movr_load_returns_at_stop (cities : list string)
    (read_percentage : Q) (before after : list draws) (d : draws)
    (st : state metadata) :
  Forall (fun d' => stop d' = false) before ->
  stop d = true ->
  simulate_movr_load generate_vehicle_metadata cities read_percentage
    (before ++ d :: after) st
  = let* r := simulate_movr_load generate_vehicle_metadata cities
                read_percentage before st in
    Ok (fst r, true).
Proof.
  intros Hb Hd. revert st.
  induction Hb as [|d' ds Hd' _ IH]; intros st; cbn [app simulate_movr_load].
  - by rewrite Hd.
  - rewrite Hd'.
    destruct (iteration _ cities read_percentage d' st) as [st1|];
      [|reflexivity].
    cbn [bind]. apply IH.
Qed.

End SimulatorExtras.

(** ** The warm-up of the load generator *)

Section GeneratorFacts.
Import WorkloadSimulator LoadGenerator SimulatorState.
Variable get_users : string -> list entity.
Variable get_vehicles : string -> list entity.
Variable get_active_rides : string -> list ride.

Lemma seed_test (city : string) :
  has_seed get_users get_vehicles city ->
  ((length (vehicles (mkRegistry (get_users city) (get_vehicles city))) =? 0)
   || (length (users (mkRegistry (get_users city) (get_vehicles city))) =? 0))%nat
  = false.
Proof.
  intros [Hu Hv]. cbn [users vehicles].
  destruct (get_users city); [congruence|].
  destruct (get_vehicles city); [congruence|]. reflexivity.
Qed.

Lemma no_seed_test (city : string) :
  get_users city = [] \/ get_vehicles city = [] ->
  ((length (vehicles (mkRegistry (get_users city) (get_vehicles city))) =? 0)
   || (length (users (mkRegistry (get_users city) (get_vehicles city))) =? 0))%nat
  = true.
Proof.
  cbn [users vehicles]. intros [-> | ->]; [apply orb_true_r|reflexivity].
Qed.

(** The warm-up over cities that all have users and vehicles. *)
Lemma warm_up_seeded (cities : list string) (m : gmap string registry)
    (rides : list ride) :
  Forall (has_seed get_users get_vehicles) cities ->
  exists m',
    warm_up get_users get_vehicles get_active_rides cities m rides
    = (concat (map warm_up_reads cities),
       Ok (m', rides ++ concat (map get_active_rides cities)))
    /\ forall city,
         m' !! city
         = if decide (city ∈ cities)
           then Some (mkRegistry (get_users city) (get_vehicles city))
           else m !! city.
Proof.
  intros Hs. revert m rides. induction Hs as [|c l Hc _ IH]; intros m rides.
  - exists m. cbn [warm_up map concat]. rewrite app_nil_r. split; [reflexivity|].
    intros city. destruct (decide (city ∈ [])) as [H|_]; [|reflexivity].
    by apply not_elem_of_nil in H.
  - cbn [warm_up]. rewrite seed_test by exact Hc.
    destruct (IH (<[c := mkRegistry (get_users c) (get_vehicles c)]> m)
                (rides ++ get_active_rides c)) as (m' & E & L).
    rewrite E. exists m'. cbn [map concat warm_up_reads app].
    rewrite <- app_assoc. split; [reflexivity|].
    intros city. rewrite L.
    destruct (decide (city ∈ l)) as [Hin|Hout].
    + rewrite decide_True by (by right). reflexivity.
    + destruct (decide (c = city)) as [<-|Hne].
      * rewrite lookup_insert_eq, decide_True by (by left). reflexivity.
      * rewrite lookup_insert_ne by exact Hne.
        rewrite decide_False; [reflexivity|].
        intros [->|?]%elem_of_cons; contradiction.
Qed.

(** The warm-up stops at the first city without users or vehicles. *)
Lemma warm_up_unseeded (good rest : list string) (bad : string)
    (m : gmap string registry) (rides : list ride) :
  Forall (has_seed get_users get_vehicles) good ->
  get_users bad = [] \/ get_vehicles bad = [] ->
  exists msg,
    warm_up get_users get_vehicles get_active_rides (good ++ bad :: rest) m rides
    = (concat (map warm_up_reads good) ++ [GetUsers bad; GetVehicles bad; Log msg],
       Raise (SystemExit 1)).
Proof.
  intros Hs Hbad. revert m rides. induction Hs as [|c l Hc _ IH]; intros m rides.
  - cbn [app warm_up]. rewrite no_seed_test by exact Hbad. eauto.
  - cbn [app warm_up]. rewrite seed_test by exact Hc.
    destruct (IH (<[c := mkRegistry (get_users c) (get_vehicles c)]> m)
                (rides ++ get_active_rides c)) as (msg & E).
    rewrite E. exists msg. reflexivity.
Qed.

Lemma valid_read_percentage (rp : Q) :
  (0 <= rp)%Q -> (rp <= 1)%Q -> Qltb rp 0 || Qltb 1 rp = false.
Proof.
  intros H0 H1.
  destruct (Qltb rp 0) eqn:E0; [apply Qltb_lt in E0; lra|].
  destruct (Qltb 1 rp) eqn:E1; [apply Qltb_lt in E1; lra|]. reflexivity.
Qed.

Lemma started_simulators_app (l1 l2 : list event) :
  started_simulators (l1 ++ l2) = started_simulators l1 ++ started_simulators l2.
Proof. unfold started_simulators. apply omap_app. Qed.

Lemma started_simulators_reads (cities : list string) :
  started_simulators (concat (map warm_up_reads cities)) = [].
Proof. induction cities as [|c l IH]; [reflexivity|exact IH]. Qed.

Lemma started_simulators_replicate (n : nat) (a : thread_args) :
  started_simulators (replicate n (StartThread a)) = replicate n a.
Proof.
  induction n as [|n IH]; [reflexivity|].
  cbn [replicate]. unfold started_simulators in *. cbn [omap list_omap].
  by rewrite IH.
Qed.

Lemma storage_reads_of_reads (cities : list string) :
  filter (fun e => is_storage_read e = true) (concat (map warm_up_reads cities))
  = concat (map warm_up_reads cities).
Proof.
  induction cities as [|c l IH]; [reflexivity|].
  cbn [map concat warm_up_reads app].
  rewrite !filter_cons_True by reflexivity. by rewrite IH.
Qed.

End GeneratorFacts.

Section GeneratorExtras.
Import WorkloadSimulator LoadGenerator SimulatorState.
Variable get_users : string -> list entity.
Variable get_vehicles : string -> list entity.
Variable get_active_rides : string -> list ride.

(** X18.  With a valid read fraction, when the storage has a user and a
    vehicle for every city to simulate (the cities given, or all the
    cities of the partition map when none is given), the load generator
    raises nothing and starts exactly the requested number of threads,
    all on the same arguments: those cities, a registry for each of them
    and for no other city, holding the users and the vehicles read for it,
    the active rides read for the cities, in city order, and the read
    fraction.  In the state these arguments make the list of cities is not
    empty and every city has a registry with at least one user and one
    vehicle. *)
Theorem run_load_generator_starts_threads (all_cities : list string)
    (read_percentage : Q) (city_list : option (list string))
    (num_threads : Z) :
  let cities := match city_list with None => all_cities | Some l => l end in
  (0 <= read_percentage)%Q -> (read_percentage <= 1)%Q ->
  cities <> [] ->
  Forall (has_seed get_users get_vehicles) cities ->
  exists events a,
    run_load_generator get_users get_vehicles get_active_rides all_cities
      read_percentage city_list num_threads = (events, Ok tt)
    /\ started_simulators events = replicate (Z.to_nat num_threads) a
    /\ t_cities a = cities
    /\ t_read_percentage a = read_percentage
    /\ t_active_rides a = concat (map get_active_rides cities)
    /\ (forall city,
          t_movr_objects a !! city
          = if decide (city ∈ cities)
            then Some (mkRegistry (get_users city) (get_vehicles city))
            else None)
    /\ seeded cities
         (mkState (metadata := unit) (t_movr_objects a) (t_active_rides a) []).
Proof.
  intros cities H0 H1 Hne Hs. unfold run_load_generator.
  rewrite valid_read_percentage by assumption. fold cities.
  destruct (warm_up_seeded get_users get_vehicles get_active_rides cities ∅ [] Hs)
    as (m' & E & L).
  rewrite E. cbn [app].
  eexists. exists (mkThreadArgs cities m' (concat (map get_active_rides cities))
                     read_percentage).
  split; [reflexivity|]. split.
  { unfold started_simulators at 1. cbn [omap list_omap].
    fold (started_simulators
            (concat (map warm_up_reads cities)
               ++ Log "starting load"
               :: replicate (Z.to_nat num_threads)
                    (StartThread
                       (mkThreadArgs cities m'
                          (concat (map get_active_rides cities)) read_percentage)))).
    rewrite started_simulators_app, started_simulators_reads. cbn [app].
    unfold started_simulators at 1. cbn [omap list_omap].
    apply started_simulators_replicate. }
  cbn [t_cities t_read_percentage t_active_rides t_movr_objects].
  repeat split; try reflexivity.
  - intros city. rewrite L, lookup_empty. reflexivity.
  - exact Hne.
  - intros city Hin. cbn [movr_objects]. rewrite L, decide_True by exact Hin.
    rewrite Forall_forall in Hs. destruct (Hs city Hin) as [Hu Hv].
    eexists. split; [reflexivity|]. split; assumption.
Qed.

(** X19.  With a valid read fraction, when a city to simulate has no user
    or no vehicle in storage, the load generator leaves through
    [sys.exit(1)] without starting any thread; it has read storage for the
    cities before that one, and the users and vehicles of that one, and
    nothing for the cities after it. *)
Theorem run_load_generator_needs_seed_data (all_cities : list string)
    (read_percentage : Q) (city_list : option (list string))
    (num_threads : Z) (good rest : list string) (bad : string) :
  (0 <= read_percentage)%Q -> (read_percentage <= 1)%Q ->
  match city_list with None => all_cities | Some l => l end
    = good ++ bad :: rest ->
  Forall (has_seed get_users get_vehicles) good ->
  get_users bad = [] \/ get_vehicles bad = [] ->
  exists events,
    run_load_generator get_users get_vehicles get_active_rides all_cities
      read_percentage city_list num_threads = (events, Raise (SystemExit 1))
    /\ started_simulators events = []
    /\ filter (fun e => is_storage_read e = true) events
       = concat (map warm_up_reads good) ++ [GetUsers bad; GetVehicles bad].
Proof.
  intros H0 H1 Hc Hs Hbad. unfold run_load_generator.
  rewrite valid_read_percentage by assumption. rewrite Hc.
  destruct (warm_up_unseeded get_users get_vehicles get_active_rides good rest
              bad ∅ [] Hs Hbad) as (msg & E).
  rewrite E. eexists. split; [reflexivity|]. split.
  - unfold started_simulators at 1. cbn [omap list_omap].
    fold (started_simulators
            (concat (map warm_up_reads good)
               ++ [GetUsers bad; GetVehicles bad; Log msg])).
    by rewrite started_simulators_app, started_simulators_reads.
  - rewrite !filter_cons_False by (cbn; discriminate).
    rewrite filter_app, storage_reads_of_reads.
    rewrite !filter_cons_True by reflexivity.
    by rewrite filter_cons_False by (cbn; discriminate).
Qed.

End GeneratorExtras.

(** ** The main program, end to end *)

Section MainExtras.
Import Main SimulatorState.
Variable get_users : string -> list WorkloadSimulator.entity.
Variable get_vehicles : string -> list WorkloadSimulator.entity.
Variable get_active_rides : string -> list WorkloadSimulator.ride.



(** X20.  The main program checks its options before anything else: a
    connection string in which [re.search] does not find the pattern of
    the first check (the outcome of that search is what the model is
    given), a thread count of zero or less, or a log level that is not one
    of debug, info, warning and error makes it leave through
    [sys.exit(1)] after one log message, without reading the partition
    pairs, opening the database or starting a thread. *)
Theorem main_rejects_bad_options (a : args) :
  conn_string_names_database a = false
  \/ num_threads a <= 0
  \/ log_level a ∉ ["debug"; "info"; "warning"; "error"]%string ->
  exists msg,
    main get_users get_vehicles get_active_rides a
    = ([Log msg], Raise (SystemExit 1)).
Proof.
  intros H. unfold main.
  destruct (conn_string_names_database a); cbn [negb]; [|eauto].
  destruct (Z.leb_spec (num_threads a) 0); [eauto|].
  destruct (decide (log_level a ∈ ["debug"; "info"; "warning"; "error"]%string))
    as [Hin|Hout].
  - exfalso. destruct H as [H|[H|H]]; [discriminate|lia|contradiction].
  - rewrite bool_decide_eq_false_2 by exact Hout. cbn [negb]. eauto.
Qed.


End MainExtras.

(** ** The shutdown handler within the grace period *)

Section ShutdownExtras.
Import ShutdownCoordinator.

(** X22.  As long as every reading of the clock is within the grace
    period, the handler never ends the process by force, however many
    times it polls: it either goes on waiting or leaves through
    [sys.exit(0)]. *)
Theorem signal_handler_never_forces_within_grace (fuel : nat)
    (TERMINATE_GRACEFULLY : bool) (start : Q) (obs : nat -> observation) :
  (forall i, (now (obs i) - start <= grace_period)%Q) ->
  snd (signal_handler fuel TERMINATE_GRACEFULLY start obs) = None
  \/ snd (signal_handler fuel TERMINATE_GRACEFULLY start obs)
     = Some (sys_exit 0).
Proof.
  intros Hin. unfold signal_handler. cbn [snd]. generalize 0%nat.
  induction fuel as [|fuel IH]; intros i; [by left|].
  cbn [poll]. destruct (1 <? active_count (obs i)); [|by right].
  destruct (WorkloadSimulator.Qltb grace_period (now (obs i) - start)) eqn:E;
    [|apply IH].
  apply Qltb_lt in E. exfalso. exact (Qlt_not_le _ _ E (Hin i)).
Qed.

End ShutdownExtras.

(** ** The partition mapper on any input *)

Section MapperExtras.
Import PartitionMapper.

Lemma no_colon_first (e : string) :
  PyStr.contains colon e = false -> name_of e = e /\ city_of e = EmptyString.
Proof.
  unfold name_of, city_of. induction e as [|c e IH]; [done|].
  cbn [PyStr.contains PyStr.before_first PyStr.after_first].
  destruct (Ascii.eqb c colon); [discriminate|].
  intros H. destruct (IH H) as [-> ->]. done.
Qed.

(** What the mapper returns under every key, for any input. *)
Lemma extract_lookup (pair_list : list string) (m : gmap string (list string))
    (name : string) :
  extract_partition_pairs_from_cli (Some pair_list) = Ok m ->
  m !! name = entry_of (cities_named name pair_list).
Proof.
  cbn [extract_partition_pairs_from_cli]. intros H.
  rewrite (partition_loop_lookup _ _ _ name H), lookup_empty.
  by destruct (cities_named name pair_list).
Qed.

Lemma elem_of_cities_named (name city : string) (pair_list : list string) :
  city ∈ cities_named name pair_list
  <-> exists e, e ∈ pair_list /\ name_of e = name /\ city_of e = city.
Proof.
  unfold cities_named. rewrite list_elem_of_fmap. split.
  - intros (e & -> & He). apply list_elem_of_filter in He as [Hn He]. eauto.
  - intros (e & He & Hn & <-). exists e. split; [reflexivity|].
    by apply list_elem_of_filter.
Qed.

(** X23.  An entry without a colon is kept, not dropped: the whole entry
    becomes a partition name, and the empty string is filed under it as a
    city. *)
Theorem mapper_files_colonless_entry (pair_list : list string)
    (m : gmap string (list string)) (e : string) :
  extract_partition_pairs_from_cli (Some pair_list) = Ok m ->
  e ∈ pair_list ->
  PyStr.contains colon e = false ->
  exists cities, m !! e = Some cities /\ EmptyString ∈ cities.
Proof.
  intros Hm He Hc. destruct (no_colon_first e Hc) as [Hn Hcity].
  rewrite (extract_lookup _ _ e Hm).
  assert (Hin : EmptyString ∈ cities_named e pair_list)
    by (apply elem_of_cities_named; eauto).
  destruct (cities_named e pair_list) as [|c l] eqn:E.
  - by apply not_elem_of_nil in Hin.
  - exists (c :: l). done.
Qed.

(** X24.  The partitions of the mapping are exactly the partition names
    that occur in the input, and no partition is left without a city. *)
Theorem mapper_partitions_are_input_names (pair_list : list string)
    (m : gmap string (list string)) :
  extract_partition_pairs_from_cli (Some pair_list) = Ok m ->
  (forall name,
     is_Some (m !! name) <-> exists e, e ∈ pair_list /\ name_of e = name)
  /\ map_Forall (fun _ cities => cities <> []) m.
Proof.
  intros Hm. split.
  - intros name. rewrite (extract_lookup _ _ name Hm). split.
    + intros [cities Hc].
      destruct (cities_named name pair_list) as [|c l] eqn:E; [discriminate|].
      assert (Hin : c ∈ cities_named name pair_list) by (rewrite E; by left).
      apply elem_of_cities_named in Hin as (e & He & Hn & _). eauto.
    + intros (e & He & Hn).
      assert (Hin : city_of e ∈ cities_named name pair_list)
        by (apply elem_of_cities_named; eauto).
      destruct (cities_named name pair_list) as [|c l];
        [by apply not_elem_of_nil in Hin|by eexists].
  - intros name cities Hl. rewrite (extract_lookup _ _ name Hm) in Hl.
    destruct (cities_named name pair_list); [discriminate|].
    injection Hl as <-. discriminate.
Qed.

(** X25.  Two inputs that list the same cities in the same order under
    every partition name give dicts that are equal ([==]): the same
    partition names, each with the same list of cities, however the
    entries of the two inputs are interleaved.  The order in which a dict
    enumerates its names, which follows their first occurrences and
    decides the order of [all_cities], is not part of the equality and is
    not stated here. *)
Theorem mapper_ignores_interleaving (l l' : list string) :
  (forall name, cities_named name l = cities_named name l') ->
  extract_partition_pairs_from_cli (Some l)
  = extract_partition_pairs_from_cli (Some l').
Proof.
  intros H.
  destruct (partition_loop_ok l ∅) as [m Hm].
  destruct (partition_loop_ok l' ∅) as [m' Hm'].
  cbn [extract_partition_pairs_from_cli]. rewrite Hm, Hm'. f_equal.
  apply map_eq. intros name.
  rewrite (extract_lookup l m name Hm), (extract_lookup l' m' name Hm').
  by rewrite H.
Qed.

End MapperExtras.

(** ** Instances *)

Lemma add_vehicles_saves_each_index_once_witness :
  (forall chunk, chunk ∈ BulkLoader.range_step 2 1000 ->
                 MoreSamples.one_owner chunk <> [])
  /\ exists vs,
       LoaderBodies.vehicles_written Samples.sample_metadata "seattle"
         MoreSamples.one_owner Samples.sample_vehicle_draws 2 = Ok vs
       /\ map BulkLoader.v_type vs = ["bike"; "scooter"]%string.
Proof.
  assert (H : forall chunk, chunk ∈ BulkLoader.range_step 2 1000 ->
                MoreSamples.one_owner chunk <> []) by (intros chunk _; discriminate).
  split; [exact H|].
  destruct (add_vehicles_saves_each_index_once Samples.sample_metadata "seattle"
              MoreSamples.one_owner Samples.sample_vehicle_draws 2 H)
    as (vs & E & T & _).
  exists vs. split; [exact E|exact T].
Defined.

Lemma add_vehicles_without_users_witness :
  MoreSamples.no_owner 0 = [] /\ 1 <= 2
  /\ LoaderBodies.vehicles_written Samples.sample_metadata "seattle"
       MoreSamples.no_owner Samples.sample_vehicle_draws 2 = Raise IndexError.
Proof.
  split; [reflexivity|]. split; [lia|].
  apply add_vehicles_without_users; [reflexivity|lia].
Defined.

Lemma add_rides_helper_saves_valid_rides_witness :
  MoreSamples.one_owner 0 <> [] /\ MoreSamples.one_vehicle <> []
  /\ (forall i, LoaderBodies.randint_in_range (MoreSamples.sample_ride_draws i))
  /\ exists rides,
       LoaderBodies.add_rides_helper 500 "seattle" (MoreSamples.one_owner 0)
         MoreSamples.one_vehicle MoreSamples.sample_ride_draws 0 500 = Ok rides
       /\ length rides = 500%nat.
Proof.
  assert (H1 : MoreSamples.one_owner 0 <> []) by discriminate.
  assert (H2 : MoreSamples.one_vehicle <> []) by discriminate.
  assert (H3 : forall i,
             LoaderBodies.randint_in_range (MoreSamples.sample_ride_draws i))
    by (intros i; unfold LoaderBodies.randint_in_range; simpl; lia).
  split; [exact H1|]. split; [exact H2|]. split; [exact H3|].
  destruct (add_rides_helper_saves_valid_rides 500 "seattle"
              (MoreSamples.one_owner 0) MoreSamples.one_vehicle
              MoreSamples.sample_ride_draws 0 500 H1 H2 H3) as (rides & E & L & _).
  exists rides. split; [exact E|exact L].
Defined.

Lemma load_movr_data_loads_every_city_witness :
  (forall t, MoreSamples.never_set t = false)
  /\ 0 < 2000 /\ 0 < 1 /\ 0 < 1
  /\ BulkLoader.checked
       (fst (BulkLoader.load_movr_data MoreSamples.never_set 2000 1 1
               ["seattle"; "paris"]%string))
     = ["seattle"; "paris"]%string.
Proof.
  assert (H : forall t, MoreSamples.never_set t = false) by reflexivity.
  split; [exact H|]. split; [lia|]. split; [lia|]. split; [lia|].
  destruct (load_movr_data_loads_every_city MoreSamples.never_set 2000 1 1
              ["seattle"; "paris"]%string H) as (E & C & _); [lia..|].
  rewrite E. exact C.
Defined.




Lemma distribute_gives_valid_counts_witness :
  ["seattle"; "paris"; "rome"]%string <> [] /\ 1 <= 5
  /\ 0 < 50 < 2 ^ 53 /\ 0 < 500 < 2 ^ 53 /\ 0 < 10 < 2 ^ 53
  /\ Z.of_nat (length ["seattle"; "paris"; "rome"]%string) < 2 ^ 53
  /\ exists started,
       snd (LoadDistributor.distribute ["seattle"; "paris"; "rome"]%string
              50 500 10 5) = Ok started
       /\ Forall (fun a => LoadDistributor.t_num_users a = 17
                           /\ LoadDistributor.t_num_vehicles a = 4
                           /\ LoadDistributor.t_num_rides a = 167) started.
Proof.
  split; [discriminate|]. split; [lia|].
  split; [split; reflexivity|]. split; [split; reflexivity|].
  split; [split; reflexivity|]. split; [reflexivity|].
  destruct (distribute_gives_valid_counts ["seattle"; "paris"; "rome"]%string
              50 500 10 5 MoreSamples.never_set) as (started & E & F);
    [discriminate|lia|split; reflexivity..|reflexivity|].
  exists started. split; [exact E|].
  eapply Forall_impl; [exact F|]. cbn zeta. cbn [length].
  intros a (Hu & Hv & Hr & _). lia.
Defined.


Lemma sample_state_seeded :
  SimulatorState.seeded ["seattle"%string] Samples.sample_state.
Proof.
  split; [discriminate|]. intros city Hin.
  apply list_elem_of_singleton in Hin as ->.
  eexists. split; [reflexivity|]. split; discriminate.
Qed.

Lemma simulate_movr_load_never_raises_witness :
  SimulatorState.seeded ["seattle"%string] Samples.sample_state
  /\ exists st' returned,
       WorkloadSimulator.simulate_movr_load Samples.sample_metadata
         ["seattle"%string] (1 # 2)
         [Samples.add_vehicle_draws; Samples.end_ride_draws] Samples.sample_state
       = Ok (st', returned)
       /\ SimulatorState.seeded ["seattle"%string] st'.
Proof.
  split; [exact sample_state_seeded|].
  apply simulate_movr_load_never_raises. exact sample_state_seeded.
Defined.

Lemma simulate_movr_load_appends_only_witness :
  exists st' returned,
    WorkloadSimulator.simulate_movr_load Samples.sample_metadata
      ["seattle"%string] (1 # 2)
      [Samples.add_vehicle_draws; Samples.end_ride_draws] Samples.sample_state
    = Ok (st', returned)
    /\ SimulatorState.grown Samples.sample_state st'.
Proof.
  eexists. eexists. split; [reflexivity|].
  eapply (simulate_movr_load_appends_only Samples.sample_metadata
            ["seattle"%string] (1 # 2)
            [Samples.add_vehicle_draws; Samples.end_ride_draws]).
  reflexivity.
Defined.

Lemma simulate_movr_load_keeps_balance_witness :
  exists st' returned,
    WorkloadSimulator.simulate_movr_load Samples.sample_metadata
      ["seattle"%string] (1 # 2)
      [Samples.add_vehicle_draws; Samples.end_ride_draws] Samples.sample_state
    = Ok (st', returned)
    /\ SimulatorState.balance st' = 3
    /\ (length (WorkloadSimulator.calls st') <= 2)%nat.
Proof.
  eexists. eexists. split; [reflexivity|].
  eapply (simulate_movr_load_keeps_balance Samples.sample_metadata
            ["seattle"%string] (1 # 2)
            [Samples.add_vehicle_draws; Samples.end_ride_draws]
            Samples.sample_state).
  reflexivity.
Defined.

Lemma simulate_movr_load_reads_only_witness :
  ["seattle"%string] <> []
  /\ Forall (fun d => SimulatorState.unit_interval
                        (WorkloadSimulator.randoms d 0%nat))
       [MoreSamples.half_draws; Samples.end_ride_draws]
  /\ exists reads returned,
       WorkloadSimulator.simulate_movr_load Samples.sample_metadata
         ["seattle"%string] 1
         [MoreSamples.half_draws; Samples.end_ride_draws] Samples.sample_state
       = Ok (WorkloadSimulator.mkState
               (WorkloadSimulator.movr_objects Samples.sample_state)
               (WorkloadSimulator.active_rides Samples.sample_state)
               (WorkloadSimulator.calls Samples.sample_state ++ reads),
             returned)
       /\ Forall (SimulatorState.is_read ["seattle"%string]) reads.
Proof.
  assert (Hne : ["seattle"%string] <> []) by discriminate.
  assert (Hds : Forall (fun d => SimulatorState.unit_interval
                                   (WorkloadSimulator.randoms d 0%nat))
                  [MoreSamples.half_draws; Samples.end_ride_draws])
    by (repeat constructor; discriminate).
  split; [exact Hne|]. split; [exact Hds|].
  destruct (simulate_movr_load_reads_only Samples.sample_metadata _ _
              Samples.sample_state Hne Hds) as (reads & returned & E & F & _).
  exists reads, returned. split; [exact E|exact F].
Defined.

Lemma simulate_movr_load_never_reads_witness :
  Forall (fun d => SimulatorState.unit_interval
                     (WorkloadSimulator.randoms d 0%nat))
    [Samples.add_vehicle_draws; Samples.end_ride_draws]
  /\ exists st' returned writes,
       WorkloadSimulator.simulate_movr_load Samples.sample_metadata
         ["seattle"%string] 0
         [Samples.add_vehicle_draws; Samples.end_ride_draws] Samples.sample_state
       = Ok (st', returned)
       /\ WorkloadSimulator.calls st'
          = WorkloadSimulator.calls Samples.sample_state ++ writes
       /\ Forall (fun c => forall city limit,
                    c <> WorkloadSimulator.get_vehicles city limit) writes.
Proof.
  assert (Hds : Forall (fun d => SimulatorState.unit_interval
                                   (WorkloadSimulator.randoms d 0%nat))
                  [Samples.add_vehicle_draws; Samples.end_ride_draws])
    by (repeat constructor; discriminate).
  split; [exact Hds|]. eexists. eexists.
  assert (E : WorkloadSimulator.simulate_movr_load Samples.sample_metadata
                ["seattle"%string] 0
                [Samples.add_vehicle_draws; Samples.end_ride_draws]
                Samples.sample_state
              = Ok (_, _)) by reflexivity.
  destruct (simulate_movr_load_never_reads Samples.sample_metadata _ _ _ _ _
              Hds E) as (writes & Hc & Hw).
  exists writes. split; [exact E|]. split; [exact Hc|exact Hw].
Defined.

Lemma simulate_movr_load_returns_at_stop_witness :
  Forall (fun d' => WorkloadSimulator.stop d' = false) [Samples.end_ride_draws]
  /\ WorkloadSimulator.stop MoreSamples.stop_draws = true
  /\ exists st',
       WorkloadSimulator.simulate_movr_load Samples.sample_metadata
         ["seattle"%string] (1 # 2)
         ([Samples.end_ride_draws]
            ++ MoreSamples.stop_draws :: [Samples.add_vehicle_draws])
         Samples.sample_state
       = Ok (st', true)
       /\ length (WorkloadSimulator.active_rides st') = 2%nat.
Proof.
  assert (Hb : Forall (fun d' => WorkloadSimulator.stop d' = false)
                 [Samples.end_ride_draws]) by (repeat constructor).
  split; [exact Hb|]. split; [reflexivity|].
  rewrite (simulate_movr_load_returns_at_stop Samples.sample_metadata
             ["seattle"%string] (1 # 2) [Samples.end_ride_draws]
             [Samples.add_vehicle_draws] MoreSamples.stop_draws
             Samples.sample_state Hb eq_refl).
  eexists. split; reflexivity.
Defined.

Lemma run_load_generator_starts_threads_witness :
  (0 <= 19 # 20)%Q /\ (19 # 20 <= 1)%Q
  /\ ["seattle"; "paris"]%string <> []
  /\ Forall (SimulatorState.has_seed MoreSamples.stored_users
               MoreSamples.stored_vehicles) ["seattle"; "paris"]%string
  /\ exists events a,
       LoadGenerator.run_load_generator MoreSamples.stored_users
         MoreSamples.stored_vehicles MoreSamples.stored_rides
         ["rome"%string] (19 # 20) (Some ["seattle"; "paris"]%string) 3
       = (events, Ok tt)
       /\ SimulatorState.started_simulators events = [a; a; a]
       /\ LoadGenerator.t_active_rides a
          = [WorkloadSimulator.mkRide "seattle" "r1";
             WorkloadSimulator.mkRide "paris" "r1"].
Proof.
  assert (H0 : (0 <= 19 # 20)%Q) by discriminate.
  assert (H1 : (19 # 20 <= 1)%Q) by discriminate.
  assert (Hne : ["seattle"; "paris"]%string <> []) by discriminate.
  assert (Hs : Forall (SimulatorState.has_seed MoreSamples.stored_users
                         MoreSamples.stored_vehicles) ["seattle"; "paris"]%string)
    by (repeat constructor; discriminate).
  split; [exact H0|]. split; [exact H1|]. split; [exact Hne|]. split; [exact Hs|].
  destruct (run_load_generator_starts_threads MoreSamples.stored_users
              MoreSamples.stored_vehicles MoreSamples.stored_rides
              ["rome"%string] (19 # 20) (Some ["seattle"; "paris"]%string) 3
              H0 H1 Hne Hs) as (events & a & E & T & _ & _ & R & _).
  exists events, a. split; [exact E|]. split; [exact T|exact R].
Defined.

Lemma run_load_generator_needs_seed_data_witness :
  (0 <= 19 # 20)%Q /\ (19 # 20 <= 1)%Q
  /\ Forall (SimulatorState.has_seed MoreSamples.stored_users
               MoreSamples.vehicles_but_paris) ["seattle"%string]
  /\ (MoreSamples.stored_users "paris" = []
      \/ MoreSamples.vehicles_but_paris "paris" = [])
  /\ exists events,
       LoadGenerator.run_load_generator MoreSamples.stored_users
         MoreSamples.vehicles_but_paris MoreSamples.stored_rides
         ["seattle"; "paris"; "rome"]%string (19 # 20) None 3
       = (events, Raise (SystemExit 1))
       /\ SimulatorState.started_simulators events = [].
Proof.
  assert (H0 : (0 <= 19 # 20)%Q) by discriminate.
  assert (H1 : (19 # 20 <= 1)%Q) by discriminate.
  assert (Hs : Forall (SimulatorState.has_seed MoreSamples.stored_users
                         MoreSamples.vehicles_but_paris) ["seattle"%string])
    by (repeat constructor; discriminate).
  assert (Hb : MoreSamples.stored_users "paris" = []
               \/ MoreSamples.vehicles_but_paris "paris" = [])
    by (right; reflexivity).
  split; [exact H0|]. split; [exact H1|]. split; [exact Hs|]. split; [exact Hb|].
  destruct (run_load_generator_needs_seed_data MoreSamples.stored_users
              MoreSamples.vehicles_but_paris MoreSamples.stored_rides
              ["seattle"; "paris"; "rome"]%string (19 # 20) None 3
              ["seattle"%string] ["rome"%string] "paris" H0 H1 eq_refl Hs Hb)
    as (events & E & T & _).
  exists events. split; [exact E|exact T].
Defined.

Lemma main_rejects_bad_options_witness :
  (Main.conn_string_names_database MoreSamples.bad_level_args = false
   \/ Main.num_threads MoreSamples.bad_level_args <= 0
   \/ Main.log_level MoreSamples.bad_level_args
      ∉ ["debug"; "info"; "warning"; "error"]%string)
  /\ exists msg,
       Main.main MoreSamples.stored_users MoreSamples.stored_vehicles
         MoreSamples.stored_rides MoreSamples.bad_level_args
       = ([Main.Log msg], Raise (SystemExit 1)).
Proof.
  assert (H : Main.conn_string_names_database MoreSamples.bad_level_args = false
              \/ Main.num_threads MoreSamples.bad_level_args <= 0
              \/ Main.log_level MoreSamples.bad_level_args
                 ∉ ["debug"; "info"; "warning"; "error"]%string).
  { right. right. cbn [Main.log_level MoreSamples.bad_level_args].
    rewrite !not_elem_of_cons. repeat split; try discriminate.
    apply not_elem_of_nil. }
  split; [exact H|].
  exact (main_rejects_bad_options MoreSamples.stored_users
           MoreSamples.stored_vehicles MoreSamples.stored_rides
           MoreSamples.bad_level_args H).
Defined.


Lemma signal_handler_never_forces_within_grace_witness :
  (forall i,
     (ShutdownCoordinator.now (MoreSamples.frozen_observations i) - 0
      <= ShutdownCoordinator.grace_period)%Q)
  /\ snd (ShutdownCoordinator.signal_handler 1000 false 0
            MoreSamples.frozen_observations) = None.
Proof.
  assert (H : forall i,
            (ShutdownCoordinator.now (MoreSamples.frozen_observations i) - 0
             <= ShutdownCoordinator.grace_period)%Q) by (intros i; discriminate).
  split; [exact H|].
  destruct (signal_handler_never_forces_within_grace 1000 false 0
              MoreSamples.frozen_observations H) as [E|E]; [exact E|].
  vm_compute in E. discriminate E.
Defined.

Lemma mapper_files_colonless_entry_witness :
  exists m cities,
    PartitionMapper.extract_partition_pairs_from_cli
      (Some ["us_west:seattle"; "boston"]%string) = Ok m
    /\ PyStr.contains PartitionMapper.colon "boston" = false
    /\ m !! "boston"%string = Some cities /\ EmptyString ∈ cities.
Proof.
  destruct (partition_loop_ok ["us_west:seattle"; "boston"]%string ∅) as [m Hm].
  destruct (mapper_files_colonless_entry
              ["us_west:seattle"; "boston"]%string m "boston" Hm)
    as (cities & L & Hin); [set_solver|reflexivity|].
  exists m, cities. split; [exact Hm|]. split; [reflexivity|]. by split.
Defined.

Lemma mapper_partitions_are_input_names_witness :
  exists m,
    PartitionMapper.extract_partition_pairs_from_cli
      (Some ["us_west:seattle"; "us_east:boston"]%string) = Ok m
    /\ is_Some (m !! "us_east"%string)
    /\ ~ is_Some (m !! "eu_west"%string).
Proof.
  destruct (partition_loop_ok ["us_west:seattle"; "us_east:boston"]%string ∅)
    as [m Hm].
  destruct (mapper_partitions_are_input_names _ m Hm) as [Hk _].
  exists m. split; [exact Hm|]. split.
  - apply Hk. exists "us_east:boston"%string. split; [by right; left|reflexivity].
  - intros H. destruct (proj1 (Hk _) H) as (e & He & Hn).
    apply elem_of_cons in He as [->|He]; [discriminate Hn|].
    apply list_elem_of_singleton in He as ->. discriminate Hn.
Defined.

Lemma mapper_ignores_interleaving_witness :
  (forall name,
     PartitionMapper.cities_named name ["us_west:seattle"; "us_east:boston"]%string
     = PartitionMapper.cities_named name ["us_east:boston"; "us_west:seattle"]%string)
  /\ PartitionMapper.extract_partition_pairs_from_cli
       (Some ["us_west:seattle"; "us_east:boston"]%string)
     = PartitionMapper.extract_partition_pairs_from_cli
         (Some ["us_east:boston"; "us_west:seattle"]%string).
Proof.
  assert (H : forall name,
            PartitionMapper.cities_named name
              ["us_west:seattle"; "us_east:boston"]%string
            = PartitionMapper.cities_named name
                ["us_east:boston"; "us_west:seattle"]%string).
  { intros name. unfold PartitionMapper.cities_named.
    rewrite !filter_cons, !filter_nil.
    change (PartitionMapper.name_of "us_west:seattle") with "us_west"%string.
    change (PartitionMapper.name_of "us_east:boston") with "us_east"%string.
    destruct (decide ("us_west"%string = name)) as [E1|N1];
      destruct (decide ("us_east"%string = name)) as [E2|N2]; try reflexivity.
    exfalso. rewrite <- E1 in E2. discriminate E2. }
  split; [exact H|]. exact (mapper_ignores_interleaving _ _ H).
Defined.
